(** * Website Time Tracker: the accrual engine and the duration formatter

    A shallow embedding of [background.js] (the domain time accrual engine)
    and of [formatTime] from [popup.js], with the properties of the
    specification stated over it.

    Conventions of the embedding.
    - JavaScript numbers that the program handles are millisecond counts and
      tab ids; they are integers, modelled as [Z].  [Date.now()] differences
      and their sums are exact in a double below 2^53; beyond, [+] and [-]
      round ([JS.to_double]), and a theorem that gives the exact result of
      a flush asks for [exact_flush].
    - A value that is [null]/[undefined] or a string is an [option string];
      a value that is [null] or a number is an [option Z].  Truthiness
      follows JavaScript: [null], the empty string and [0] are falsy.
    - [chrome.storage.local] is a finite map from keys to the values the
      program can leave there: numbers and, after a concatenation, strings.
      The object a read returns is an ordinary object: [data[key]] sees its
      own entry or else the member of [Object.prototype] of that name.
    - A platform call that can throw returns a [Result]; [try]/[catch] is
      [catch].
    - An [async] function is one step: it runs to its end before any other
      code does, and [run] delivers the calls one after the other.  What
      happens when a call starts while another awaits the store is followed
      for [stopTrackingCurrentDomain] in [stop_resume] and
      [stop_overlapped]. *)

From Stdlib Require Import ZArith Lia Bool Ascii String List.
From Stdlib Require Import DecimalString DecimalPos DecimalZ.
From stdpp Require Import base strings gmap.

Local Open Scope Z_scope.

(* ===================================================================== *)
(** * JavaScript strings and numbers *)
(* ===================================================================== *)

Module JS.

(** [String.prototype.startsWith]. *)
Fixpoint startsWith (s prefix : string) {struct prefix} : bool :=
  match prefix, s with
  | EmptyString, _ => true
  | String p prefix', String c s' => if Ascii.eqb c p then startsWith s' prefix' else false
  | String _ _, EmptyString => false
  end.

(** [String.prototype.includes]: [sub] occurs somewhere in [s]. *)
Fixpoint includes (s sub : string) : bool :=
  startsWith s sub ||
  match s with
  | EmptyString => false
  | String _ s' => includes s' sub
  end.

Definition is_empty (s : string) : bool :=
  match s with EmptyString => true | String _ _ => false end.

(** [String.prototype.trim] on ASCII text: white space and line
    terminators are TAB, LF, VT, FF, CR and SPACE. *)
Fixpoint trimStart (s : string) : string :=
  match s with
  | EmptyString => EmptyString
  | String c s' => if Ascii.is_space c then trimStart s' else s
  end.

Fixpoint trimEnd (s : string) : string :=
  match s with
  | EmptyString => EmptyString
  | String c s' =>
      let r := trimEnd s' in
      if Ascii.is_space c && is_empty r then EmptyString else String c r
  end.

Definition trim (s : string) : string := trimEnd (trimStart s).

(** [Number.prototype.toString] (and the conversion of a template
    literal) on an integer: its decimal numeral, with a minus sign when
    negative.  JavaScript switches to exponent notation from 10^21 on,
    far beyond the millisecond counts of this program. *)
Definition toString (n : Z) : string :=
  NilEmpty.string_of_int (Z.to_int n).

(** The double nearest to the integer [x], ties going to the even
    mantissa: what [+] and [-] on numbers return when [x] is their exact
    result.  An integer up to 2^53 in magnitude is a double; beyond, a
    double keeps the 53 leading bits.  (Doubles end near 2^1024, far from
    any count of milliseconds.) *)
Definition to_double (x : Z) : Z :=
  let a := Z.abs x in
  if a <=? 2 ^ 53 then x
  else
    let q := 2 ^ (Z.log2 a - 52) in
    let mantissa := a / q in
    let rest := a mod q in
    let rounded :=
      if 2 * rest <? q then mantissa
      else if q <? 2 * rest then mantissa + 1
      else if Z.even mantissa then mantissa
      else mantissa + 1 in
    Z.sgn x * (rounded * q).

Global Arguments to_double : simpl never.

(** [a + b] and [a - b] on numbers. *)
Definition add (a b : Z) : Z := to_double (a + b).
Definition sub (a b : Z) : Z := to_double (a - b).

(** Truthiness of [string | null] and of [number | null]. *)
Definition truthy_string (v : option string) : bool :=
  match v with
  | Some s => negb (is_empty s)
  | None => false
  end.

Definition truthy_number (v : option Z) : bool :=
  match v with
  | Some n => negb (n =? 0)
  | None => false
  end.

End JS.


(* ===================================================================== *)
(** * popup.js: formatTime *)
(* ===================================================================== *)

(** [formatTime(ms)], statement by statement.  [Math.floor(a / b)] on
    integers with [b > 0] is [Z.div]; [%] on a non-negative left operand is
    [Z.modulo]. *)
Definition formatTime (ms : Z) : string :=
  if ms <? 1000 then "< 1s"
  else
    let seconds := ms / 1000 in
    let minutes := seconds / 60 in
    let hours := minutes / 60 in
    let seconds := seconds mod 60 in
    let minutes := minutes mod 60 in
    let timeString := "" in
    let timeString :=
      if 0 <? hours then timeString +:+ (JS.toString hours +:+ "h ") else timeString in
    let timeString :=
      if 0 <? minutes then timeString +:+ (JS.toString minutes +:+ "m ") else timeString in
    let timeString :=
      if (0 <? seconds) || String.eqb timeString ""
      then timeString +:+ (JS.toString seconds +:+ "s") else timeString in
    JS.trim timeString.



(* ===================================================================== *)
(** * The platform: URL parsing, exceptions, tabs, storage *)
(* ===================================================================== *)

(** Exceptions.  A platform call either returns or throws an [Error],
    of which the program reads only [error.message]; [catch body handler]
    is [try { body } catch (error) { handler }]. *)
Inductive Result (A : Type) : Type :=
| Ok (a : A)
| Throw (message : string).
Arguments Ok {A} a.
Arguments Throw {A} message.

Global Instance Result_bind : MBind Result := fun A B k r =>
  match r with
  | Ok a => k a
  | Throw m => Throw m
  end.

Definition catch {A} (body : Result A) (handler : string -> A) : A :=
  match body with
  | Ok a => a
  | Throw m => handler m
  end.

Module URL.

(** The two members of a [URL] object the program can observe:
    [protocol] (the scheme followed by a colon) and [hostname]. *)
Record t : Type := { protocol : string; hostname : string }.

(** ** A reference model of [new URL(input)]

    The constructor belongs to the platform, not to the repository; the
    engine below is parametrised by it.  For concrete runs this module
    gives a reference model after the URL Standard's basic URL parser
    (no base URL).  It covers the http, https, ftp, ws and wss schemes
    with a host made of ASCII letters, digits, [-] and [.] that is not
    numeric and has no [xn--] label; everything else it reports as
    [Unmodelled] rather than guess. *)
Inductive outcome : Type :=
| Parsed (u : t)
| Failure
| Unmodelled.

Definition code (c : ascii) : N := N_of_ascii c.

Definition is_c0_or_space (c : ascii) : bool := (code c <=? 32)%N.

Definition is_tab_or_newline (c : ascii) : bool :=
  (code c =? 9)%N || (code c =? 10)%N || (code c =? 13)%N.

Definition is_upper (c : ascii) : bool := (65 <=? code c)%N && (code c <=? 90)%N.
Definition is_lower (c : ascii) : bool := (97 <=? code c)%N && (code c <=? 122)%N.
Definition is_alpha (c : ascii) : bool := is_upper c || is_lower c.
Definition is_digit (c : ascii) : bool := (48 <=? code c)%N && (code c <=? 57)%N.

Definition lower (c : ascii) : ascii :=
  if is_upper c then ascii_of_N (code c + 32) else c.

Fixpoint lowercase (s : string) : string :=
  match s with
  | EmptyString => EmptyString
  | String c s' => String (lower c) (lowercase s')
  end.

(** Step 1 of the parser: leading and trailing C0 control or space go. *)
Fixpoint strip_leading (s : string) : string :=
  match s with
  | EmptyString => EmptyString
  | String c s' => if is_c0_or_space c then strip_leading s' else s
  end.

Fixpoint strip_trailing (s : string) : string :=
  match s with
  | EmptyString => EmptyString
  | String c s' =>
      let r := strip_trailing s' in
      if is_c0_or_space c && JS.is_empty r then EmptyString else String c r
  end.

(** Step 2: every ASCII tab or newline goes. *)
Fixpoint remove_tab_newline (s : string) : string :=
  match s with
  | EmptyString => EmptyString
  | String c s' =>
      if is_tab_or_newline c then remove_tab_newline s'
      else String c (remove_tab_newline s')
  end.

Definition preprocess (s : string) : string :=
  remove_tab_newline (strip_trailing (strip_leading s)).

(** Scheme start state and scheme state: an ASCII letter, then letters,
    digits, [+], [-] and [.], lower-cased, up to the first colon.  With
    no base URL anything else is a failure.  The result is the scheme and
    the input after the colon. *)
Definition is_scheme_char (c : ascii) : bool :=
  is_alpha c || is_digit c || Ascii.eqb c "+" || Ascii.eqb c "-" || Ascii.eqb c ".".

Fixpoint scheme_state (s : string) : option (string * string) :=
  match s with
  | EmptyString => None
  | String c s' =>
      if Ascii.eqb c ":" then Some (EmptyString, s')
      else if is_scheme_char c then
        match scheme_state s' with
        | Some (scheme, rest) => Some (String (lower c) scheme, rest)
        | None => None
        end
      else None
  end.

Definition scheme_start_state (s : string) : option (string * string) :=
  match s with
  | EmptyString => None
  | String c _ => if is_alpha c then scheme_state s else None
  end.

Definition is_special_not_file (scheme : string) : bool :=
  String.eqb scheme "http" || String.eqb scheme "https" || String.eqb scheme "ftp"
  || String.eqb scheme "ws" || String.eqb scheme "wss".

(** Special authority slashes and special authority ignore slashes
    states: every leading [/] and [\] is skipped. *)
Fixpoint ignore_slashes (s : string) : string :=
  match s with
  | EmptyString => EmptyString
  | String c s' =>
      if Ascii.eqb c "/" || (code c =? 92)%N then ignore_slashes s' else s
  end.

(** Authority state: the authority of a special URL ends at the first
    [/], [\], [?] or [#]. *)
Definition ends_authority (c : ascii) : bool :=
  Ascii.eqb c "/" || (code c =? 92)%N || Ascii.eqb c "?" || Ascii.eqb c "#".

Fixpoint authority (s : string) : string :=
  match s with
  | EmptyString => EmptyString
  | String c s' => if ends_authority c then EmptyString else String c (authority s')
  end.

(** The credentials end at the last [@]: [after_last_at s] is [Some] of
    what follows it, or [None] when [s] has no [@]. *)
Fixpoint after_last_at (s : string) : option string :=
  match s with
  | EmptyString => None
  | String c s' =>
      match after_last_at s' with
      | Some r => Some r
      | None => if Ascii.eqb c "@" then Some s' else None
      end
  end.

(** Host state: the host ends at the first colon (brackets are outside
    the model), the port follows. *)
Fixpoint split_port (s : string) : string * option string :=
  match s with
  | EmptyString => (EmptyString, None)
  | String c s' =>
      if Ascii.eqb c ":" then (EmptyString, Some s')
      else let '(h, p) := split_port s' in (String c h, p)
  end.

Fixpoint all_chars (f : ascii -> bool) (s : string) : bool :=
  match s with
  | EmptyString => true
  | String c s' => f c && all_chars f s'
  end.

Fixpoint port_value (s : string) (acc : N) : N :=
  match s with
  | EmptyString => acc
  | String c s' => port_value s' (acc * 10 + (code c - 48))%N
  end.

(** Port state: digits only, and at most 65535. *)
Definition port_ok (p : option string) : bool :=
  match p with
  | None => true
  | Some s => all_chars is_digit s && (port_value s 0 <=? 65535)%N
  end.

Definition is_plain_host_char (c : ascii) : bool :=
  is_alpha c || is_digit c || Ascii.eqb c "-" || Ascii.eqb c ".".

(** The labels of a host, split at the dots. *)
Fixpoint labels (s : string) : list string :=
  match s with
  | EmptyString => [EmptyString]
  | String c s' =>
      if Ascii.eqb c "." then EmptyString :: labels s'
      else match labels s' with
           | l :: ls => String c l :: ls
           | [] => [String c EmptyString]
           end
  end.

(** The label the ends-in-a-number checker looks at: the last one, or the
    one before it when the last is empty. *)
Definition last_label (s : string) : string :=
  match rev (labels s) with
  | EmptyString :: l :: _ => l
  | l :: _ => l
  | [] => EmptyString
  end.

Definition opens_with_digit (l : string) : bool :=
  match l with
  | EmptyString => false
  | String c _ => is_digit c
  end.

Definition opens_with_xn (l : string) : bool :=
  JS.startsWith (lowercase l) "xn--".

(** A host the model covers: plain characters, no punycode label, and a
    last label that cannot be read as a number (no IPv4 parsing). *)
Definition plain_domain (h : string) : bool :=
  all_chars is_plain_host_char h
  && negb (existsb opens_with_xn (labels h))
  && negb (opens_with_digit (last_label h)).

Inductive host_outcome : Type :=
| Host (h : string)
| HostFailure
| HostUnmodelled.

(** From the end of the scheme to the host of a special URL. *)
Definition special_host (rest : string) : host_outcome :=
  let auth := authority (ignore_slashes rest) in
  let hostport := match after_last_at auth with Some r => r | None => auth end in
  let '(h, p) := split_port hostport in
  if JS.is_empty h then HostFailure
  else if negb (plain_domain h) then HostUnmodelled
  else if negb (port_ok p) then HostFailure
  else Host (lowercase h).

Definition parse (input : string) : outcome :=
  match scheme_start_state (preprocess input) with
  | None => Failure
  | Some (scheme, rest) =>
      if is_special_not_file scheme then
        match special_host rest with
        | Host h => Parsed {| protocol := scheme +:+ ":"; hostname := h |}
        | HostFailure => Failure
        | HostUnmodelled => Unmodelled
        end
      else Unmodelled
  end.

(** The reference constructor: [None] is a throw.  An input that [parse]
    does not model is given as a throw as well, so the constructor stands
    for [new URL] only where [parse] answers [Parsed] or [Failure]; the
    general statements take the constructor as a parameter. *)
Definition construct (input : string) : option t :=
  match parse input with
  | Parsed u => Some u
  | Failure | Unmodelled => None
  end.

End URL.

(** A tab as [chrome.tabs.get] resolves it: the members the engine reads. *)
Record Tab : Type := {
  active : bool;            (* tab.active: the focused tab of its window *)
  url : option string;      (* tab.url, absent without the permission or a page *)
  status : string           (* tab.status: "loading" or "complete" *)
}.

(** What [chrome.storage.local] does with the calls of one
    [updateStoredTime]: serve both, reject the [get], or reject the [set]. *)
Inductive StorageIO : Type :=
| io_ok
| io_get_rejects
| io_set_rejects.

(** What the platform answers while one handler runs. *)
Record Platform : Type := {
  (* chrome.tabs.get(tabId): the tab, or a rejection with its message *)
  tabs_get : Z -> Result (option Tab);
  (* chrome.tabs.query({active: true, ...}): the id of the first match *)
  tabs_query : Result (option Z);
  storage_io : StorageIO;
  (* Date.now() as read by stopTrackingCurrentDomain *)
  Date_now : Z;
  (* Date.now() as read by startTrackingNewDomain, after the awaits *)
  Date_now_start : Z
}.

(* ===================================================================== *)
(** * background.js: the accrual engine *)
(* ===================================================================== *)

(** [activeTabInfo], the in-memory record of the tracked tab. *)
Record ActiveTabInfo : Type := {
  tabId : option Z;
  domain : option string;
  startTime : option Z
}.

Definition cleared : ActiveTabInfo :=
  {| tabId := None; domain := None; startTime := None |}.

(** A value the program leaves in [chrome.storage.local]: a number, or
    the string a [+] on something that is not a number produced. *)
Inductive Stored : Type :=
| number (n : Z)
| characters (s : string).

(** The engine's state: the global [activeTabInfo] and the content of
    [chrome.storage.local]. *)
Record State : Type := {
  activeTabInfo : ActiveTabInfo;
  storage : gmap string Stored
}.

(** The state a fresh install starts from. *)
Definition initial : State := {| activeTabInfo := cleared; storage := ∅ |}.

(** What [data[key]] evaluates to: nothing, a number, a string, or an
    object or function, of which the program only ever uses the string it
    converts to under [+]. *)
Inductive Value : Type :=
| undefined
| num (n : Z)
| str (s : string)
| object (to_string : string).

(** The members every ordinary object inherits from [Object.prototype],
    each with the string it converts to: the source text of a built-in
    function, and "[object Object]" for the prototype object itself that
    [__proto__] returns. *)
Definition Object_prototype (key : string) : option string :=
  if String.eqb key "constructor" then Some "function Object() { [native code] }"
  else if String.eqb key "toString" then Some "function toString() { [native code] }"
  else if String.eqb key "toLocaleString"
  then Some "function toLocaleString() { [native code] }"
  else if String.eqb key "valueOf" then Some "function valueOf() { [native code] }"
  else if String.eqb key "hasOwnProperty"
  then Some "function hasOwnProperty() { [native code] }"
  else if String.eqb key "isPrototypeOf"
  then Some "function isPrototypeOf() { [native code] }"
  else if String.eqb key "propertyIsEnumerable"
  then Some "function propertyIsEnumerable() { [native code] }"
  else if String.eqb key "__defineGetter__"
  then Some "function __defineGetter__() { [native code] }"
  else if String.eqb key "__defineSetter__"
  then Some "function __defineSetter__() { [native code] }"
  else if String.eqb key "__lookupGetter__"
  then Some "function __lookupGetter__() { [native code] }"
  else if String.eqb key "__lookupSetter__"
  then Some "function __lookupSetter__() { [native code] }"
  else if String.eqb key "__proto__" then Some "[object Object]"
  else None.

(** [data[key]] on the object a read of [key] resolves to: the own entry
    when the store has one, else the inherited member, else [undefined]. *)
Definition data_at (store : gmap string Stored) (key : string) : Value :=
  match store !! key with
  | Some (number n) => num n
  | Some (characters s) => str s
  | None =>
      match Object_prototype key with
      | Some s => object s
      | None => undefined
      end
  end.

(** [chrome.storage.local.get(key)] then [data[key]], and
    [chrome.storage.local.set({[key]: value})]. *)
Definition storage_get (io : StorageIO) (store : gmap string Stored) (key : string)
  : Result Value :=
  match io with
  | io_get_rejects => Throw "storage.get rejected"
  | _ => Ok (data_at store key)
  end.

Definition storage_set (io : StorageIO) (store : gmap string Stored) (key : string)
    (value : Stored) : Result (gmap string Stored) :=
  match io with
  | io_set_rejects => Throw "storage.set rejected"
  | _ => Ok (<[key := value]> store)
  end.

(** [chrome.windows.WINDOW_ID_NONE]. *)
Definition WINDOW_ID_NONE : Z := -1.

(** [v || 0]: [v] when it is truthy, else 0; an object is given as the
    string the [+] that follows converts it to. *)
Definition or_zero (v : Value) : Stored :=
  match v with
  | undefined => number 0
  | num n => if JS.truthy_number (Some n) then number n else number 0
  | str s => if JS.truthy_string (Some s) then characters s else number 0
  | object s => characters s
  end.

(** [current + timeSpentMs]: the sum of two numbers, the concatenation
    when [current] is a string. *)
Definition plus (current : Stored) (timeSpentMs : Z) : Stored :=
  match current with
  | number n => number (JS.add n timeSpentMs)
  | characters s => characters (s +:+ JS.toString timeSpentMs)
  end.

(** [activeTabInfo.tabId === tabId]. *)
Definition tabId_is (info : ActiveTabInfo) (id : Z) : bool :=
  match tabId info with
  | Some t => t =? id
  | None => false
  end.

(** [a === b] on [string | null], as in
    [newDomain === activeTabInfo.domain]. *)
Definition strict_equal (a b : option string) : bool :=
  match a, b with
  | Some x, Some y => String.eqb x y
  | None, None => true
  | _, _ => false
  end.

Section Engine.

(** [new URL(input)] of the platform: [None] when it throws. *)
Variable new_URL : string -> option URL.t.

(** [getDomain(url)]. *)
Definition getDomain (url : option string) : option string :=
  match url with
  | None => None
  | Some u =>
      if negb (JS.truthy_string url)
         || (negb (JS.startsWith u "http:") && negb (JS.startsWith u "https:"))
      then None
      else
        catch
          (parsedUrl ← match new_URL u with
                       | Some p => Ok p
                       | None => Throw "Invalid URL"
                       end;
           Ok (Some (URL.hostname parsedUrl)))
          (fun error => None)
  end.

(** [updateStoredTime(domain, timeSpentMs)]: the new content of the
    store. *)
Definition updateStoredTime (io : StorageIO) (domain : option string) (timeSpentMs : Z)
    (store : gmap string Stored) : gmap string Stored :=
  match domain with
  | None => store
  | Some d =>
      if negb (JS.truthy_string domain) || (timeSpentMs <=? 0) then store
      else
        catch
          (data ← storage_get io store d;
           let currentTotalTime := or_zero data in
           let newTotalTime := plus currentTotalTime timeSpentMs in
           storage_set io store d newTotalTime)
          (fun error => store)
  end.

(** [stopTrackingCurrentDomain()]; [now] is what [Date.now()] returns. *)
Definition stopTrackingCurrentDomain (io : StorageIO) (now : Z) (s : State) : State :=
  let info := activeTabInfo s in
  match startTime info with
  | Some start =>
      if JS.truthy_string (domain info) && JS.truthy_number (startTime info) then
        let endTime := now in
        let timeSpentMs := JS.sub endTime start in
        {| activeTabInfo := cleared;
           storage := updateStoredTime io (domain info) timeSpentMs (storage s) |}
      else s
  | None => s
  end.

(** [startTrackingNewDomain(tabId, domain)]. *)
Definition startTrackingNewDomain (now : Z) (id : Z) (d : option string) (s : State)
    : State :=
  if negb (JS.truthy_string d) then s
  else
    {| activeTabInfo := {| tabId := Some id; domain := d; startTime := Some now |};
       storage := storage s |}.

(** The tab is not there, not focused, without URL or still loading. *)
Definition not_ready (tab : option Tab) : bool :=
  match tab with
  | None => true
  | Some t =>
      negb (active t) || negb (JS.truthy_string (url t))
      || negb (String.eqb (status t) "complete")
  end.

(** [handleTabChange(tabId)]. *)
Definition handleTabChange (p : Platform) (id : Z) (s : State) : State :=
  catch
    (tab ← tabs_get p id;
     Ok
       (if not_ready tab then
          if tabId_is (activeTabInfo s) id
          then stopTrackingCurrentDomain (storage_io p) (Date_now p) s
          else s
        else
          let newDomain := getDomain (tab ≫= url) in
          if strict_equal newDomain (domain (activeTabInfo s)) then s
          else
            let s' := stopTrackingCurrentDomain (storage_io p) (Date_now p) s in
            if JS.truthy_string newDomain
            then startTrackingNewDomain (Date_now_start p) id newDomain s'
            else s'))
    (fun message =>
       if JS.includes message "No tab with id" then
         if tabId_is (activeTabInfo s) id
         then stopTrackingCurrentDomain (storage_io p) (Date_now p) s
         else s
       else stopTrackingCurrentDomain (storage_io p) (Date_now p) s).

(** ** The event listeners *)

(** [chrome.tabs.onActivated]. *)
Definition onActivated (p : Platform) (id : Z) (s : State) : State :=
  handleTabChange p id s.

(** [chrome.tabs.onUpdated]: [changeStatus] and [changeUrl] are
    [changeInfo.status] and [changeInfo.url], [tabActive] is
    [tab.active]. *)
Definition onUpdated (p : Platform) (id : Z) (changeStatus changeUrl : option string)
    (tabActive : bool) (s : State) : State :=
  if tabActive && strict_equal changeStatus (Some "complete") then handleTabChange p id s
  else if tabActive && JS.truthy_string changeUrl then handleTabChange p id s
  else s.

(** [chrome.tabs.onRemoved]. *)
Definition onRemoved (p : Platform) (id : Z) (s : State) : State :=
  if tabId_is (activeTabInfo s) id
  then stopTrackingCurrentDomain (storage_io p) (Date_now p) s
  else s.

(** [chrome.windows.onRemoved]. *)
Definition windows_onRemoved (p : Platform) (s : State) : State :=
  if JS.truthy_number (tabId (activeTabInfo s))
  then stopTrackingCurrentDomain (storage_io p) (Date_now p) s
  else s.

(** [chrome.windows.onFocusChanged]. *)
Definition windows_onFocusChanged (p : Platform) (windowId : Z) (s : State) : State :=
  if windowId =? WINDOW_ID_NONE
  then stopTrackingCurrentDomain (storage_io p) (Date_now p) s
  else
    catch
      (activeTab ← tabs_query p;
       Ok (match activeTab with
           | Some id => handleTabChange p id s
           | None => s
           end))
      (fun error => s).

(** [chrome.runtime.onStartup]: the query is not guarded, a rejection
    ends the handler where it stands. *)
Definition onStartup (p : Platform) (s : State) : State :=
  match tabs_query p with
  | Ok (Some id) => handleTabChange p id s
  | Ok None | Throw _ => s
  end.

(** [chrome.runtime.onInstalled]: the same body. *)
Definition onInstalled (p : Platform) (s : State) : State :=
  match tabs_query p with
  | Ok (Some id) => handleTabChange p id s
  | Ok None | Throw _ => s
  end.

(** ** Runs of the engine *)

(** One call into the engine: the four operations and the listeners. *)
Inductive Call : Type :=
| flush (d : option string) (elapsedMs : Z)
| stopTracking
| startTracking (id : Z) (d : option string)
| reconcile (id : Z)
| tab_activated (id : Z)
| tab_updated (id : Z) (changeStatus changeUrl : option string) (tabActive : bool)
| tab_removed (id : Z)
| window_removed
| focus_changed (windowId : Z)
| startup
| installed.

Definition step (p : Platform) (c : Call) (s : State) : State :=
  match c with
  | flush d ms =>
      {| activeTabInfo := activeTabInfo s;
         storage := updateStoredTime (storage_io p) d ms (storage s) |}
  | stopTracking => stopTrackingCurrentDomain (storage_io p) (Date_now p) s
  | startTracking id d => startTrackingNewDomain (Date_now_start p) id d s
  | reconcile id => handleTabChange p id s
  | tab_activated id => onActivated p id s
  | tab_updated id st u a => onUpdated p id st u a s
  | tab_removed id => onRemoved p id s
  | window_removed => windows_onRemoved p s
  | focus_changed w => windows_onFocusChanged p w s
  | startup => onStartup p s
  | installed => onInstalled p s
  end.

(** A run: calls delivered one after the other, each run to its end before
    the next starts, each with what the platform answers during it. *)
Fixpoint run (calls : list (Platform * Call)) (s : State) : State :=
  match calls with
  | [] => s
  | (p, c) :: rest => run rest (step p c s)
  end.

(** Calls of [stopTrackingCurrentDomain] in a row, one per reading of the
    store's behaviour and of the clock. *)
Fixpoint stop_repeatedly (readings : list (StorageIO * Z)) (s : State) : State :=
  match readings with
  | [] => s
  | (io, now) :: rest => stop_repeatedly rest (stopTrackingCurrentDomain io now s)
  end.

End Engine.

(** The number the store holds for a domain, an absent entry counting as
    0 (and so does an entry that is not a number). *)
Definition stored (store : gmap string Stored) (d : string) : Z :=
  match store !! d with
  | Some (number n) => n
  | Some (characters _) | None => 0
  end.

(** [data[key]] is a number or nothing: the entry is a number, or there is
    none and the key names no member of [Object.prototype]. *)
Definition is_numeric (v : Value) : bool :=
  match v with
  | undefined | num _ => true
  | str _ | object _ => false
  end.

(** [Number.MAX_SAFE_INTEGER] and [Number.isSafeInteger]. *)
Definition MAX_SAFE_INTEGER : Z := 2 ^ 53 - 1.

Definition safe_integer (n : Z) : Prop :=
  - MAX_SAFE_INTEGER <= n <= MAX_SAFE_INTEGER.

(** The subtraction and the addition of a flush are exact: the elapsed
    time and the new total are safe integers. *)
Definition exact_flush (current start now : Z) : Prop :=
  safe_integer (now - start) /\ safe_integer (current + (now - start)).

(** The engine's two states. *)
Definition idle (s : State) : Prop := activeTabInfo s = cleared.

Definition tracking (s : State) : bool :=
  JS.truthy_string (domain (activeTabInfo s))
  && JS.truthy_number (startTime (activeTabInfo s)).

(** The record is empty or holds a tab, a non-empty domain and a start
    time. *)
Definition well_formed (info : ActiveTabInfo) : Prop :=
  info = cleared
  \/ exists id d now,
       d <> "" /\ info = {| tabId := Some id; domain := Some d; startTime := Some now |}.

(** What one call can do to the store: at most one [updateStoredTime]. *)
Definition store_step (store store' : gmap string Stored) : Prop :=
  exists io d ms, store' = updateStoredTime io d ms store.


(* ===================================================================== *)
(** * Concrete browsing situations *)
(* ===================================================================== *)

(** A focused tab whose navigation to [u] is complete. *)
Definition focused_complete (u : string) : Tab :=
  {| active := true; url := Some u; status := "complete" |}.

(** The platform while the only tab, [tab], shows [u] at time [now] and the
    store serves its calls as [io] says. *)
Definition browsing (tab : Z) (u : string) (io : StorageIO) (now : Z) : Platform :=
  {| tabs_get := fun id =>
       if id =? tab then Ok (Some (focused_complete u))
       else Throw ("No tab with id: " +:+ JS.toString id +:+ ".");
     tabs_query := Ok (Some tab);
     storage_io := io;
     Date_now := now;
     Date_now_start := now |}.

(** The platform while [chrome.tabs.get] rejects with [message]. *)
Definition lookup_rejects (message : string) (now : Z) : Platform :=
  {| tabs_get := fun _ => Throw message;
     tabs_query := Ok None;
     storage_io := io_ok;
     Date_now := now;
     Date_now_start := now |}.

(** Tab 1 tracked on a.example since [start], with [total] ms on record. *)
Definition on_a_example (start total : Z) : State :=
  {| activeTabInfo :=
       {| tabId := Some 1; domain := Some "a.example"; startTime := Some start |};
     storage := {[ "a.example" := number total ]} |}.

(* ===================================================================== *)
(** * popup.js: displayData and clearData *)
(* ===================================================================== *)

From Stdlib Require Import Sorted.

(** A value as a read of the whole store may return it: a number (a count
    of milliseconds, an integer as the engine writes it), or anything whose
    [typeof] is not "number". *)
Inductive Item : Type :=
| item_number (n : Z)
| item_other.

(** The object [chrome.storage.local.get(null)] resolves to: its own keys
    in the order [Object.keys] lists them, each with its value. *)
Definition Items : Type := list (string * Item).

Definition Object_keys (items : Items) : list string := map fst items.

(** [items[key]]. *)
Fixpoint item_at (items : Items) (key : string) : option Item :=
  match items with
  | [] => None
  | (k, v) :: rest => if String.eqb k key then Some v else item_at rest key
  end.

(** [typeof v === 'number']. *)
Definition is_number (v : option Item) : bool :=
  match v with
  | Some (item_number _) => true
  | Some item_other | None => false
  end.

(** The number an item is; only numbers are asked. *)
Definition number_of (v : option Item) : Z :=
  match v with
  | Some (item_number n) => n
  | Some item_other | None => 0
  end.

(** [Array.prototype.sort(compare)]: a stable sort; [x] goes behind [y]
    exactly when [compare(x, y) > 0]. *)
Fixpoint sort_insert {A} (compare : A -> A -> Z) (x : A) (sorted : list A) : list A :=
  match sorted with
  | [] => [x]
  | y :: rest =>
      if 0 <? compare x y then y :: sort_insert compare x rest
      else x :: sorted
  end.

Fixpoint Array_sort {A} (compare : A -> A -> Z) (l : list A) : list A :=
  match l with
  | [] => []
  | x :: rest => sort_insert compare x (Array_sort compare rest)
  end.

(** One [<li>]: the domain span with its text and title, and the time
    span. *)
Record Row : Type := {
  domain_text : string;
  domain_title : string;
  time_text : string
}.

(** What [#dataDisplay] holds: a text, or the [<ul>] of rows. *)
Inductive Display : Type :=
| text (s : string)
| rows_of (rows : list Row).

(** The popup: [#dataDisplay], the text of [#status] and whether
    [#clearButton] is disabled. *)
Record Popup : Type := {
  dataDisplay : Display;
  status_text : string;
  clearButton_disabled : bool
}.

(** The popup as popup.html opens it. *)
Definition opened : Popup :=
  {| dataDisplay := text ""; status_text := ""; clearButton_disabled := false |}.

(** The keys [displayData] keeps: those whose value is a number. *)
Definition domains_of (items : Items) : list string :=
  List.filter (fun key => is_number (item_at items key)) (Object_keys items).

(** The comparator [(a, b) => items[b] - items[a]]. *)
Definition by_time_desc (items : Items) (a b : string) : Z :=
  number_of (item_at items b) - number_of (item_at items a).

Definition row_of (items : Items) (domain : string) : Row :=
  {| domain_text := domain;
     domain_title := domain;
     time_text := formatTime (number_of (item_at items domain)) |}.

(** [displayData()] up to its [await]: the loading message. *)
Definition displayData_start (v : Popup) : Popup :=
  {| dataDisplay := text "Loading data...";
     status_text := "";
     clearButton_disabled := clearButton_disabled v |}.

(** [displayData()] from the [await] on; [get_all] is what
    [chrome.storage.local.get(null)] settles to. *)
Definition displayData_finish (get_all : Result Items) (v : Popup) : Popup :=
  catch
    (items ← get_all;
     let domains := domains_of items in
     Ok
       (if (length domains =? 0)%nat then
          {| dataDisplay := text "No tracking data yet.";
             status_text := status_text v;
             clearButton_disabled := clearButton_disabled v |}
        else
          let domains := Array_sort (by_time_desc items) domains in
          {| dataDisplay := rows_of (map (row_of items) domains);
             status_text := status_text v;
             clearButton_disabled := clearButton_disabled v |}))
    (fun message =>
       {| dataDisplay := text "Error loading data.";
          status_text := "Error: " +:+ message;
          clearButton_disabled := clearButton_disabled v |}).

Definition displayData (get_all : Result Items) (v : Popup) : Popup :=
  displayData_finish get_all (displayData_start v).

(** [clearData()] up to the two [setTimeout] calls: [clear] is what
    [chrome.storage.local.clear()] settles to.  The result is the store,
    the popup, and whether [displayData] was scheduled. *)
Definition clearData (clear : Result unit) (store : gmap string Stored) (v : Popup)
    : gmap string Stored * Popup * bool :=
  catch
    (_ ← clear;
     Ok (∅ : gmap string Stored,
         {| dataDisplay := text "Data cleared.";
            status_text := "All data successfully cleared.";
            clearButton_disabled := true |},
         true))
    (fun message =>
       (store,
        {| dataDisplay := text "Error clearing data.";
           status_text := "Error: " +:+ message;
           clearButton_disabled := true |},
        false)).

(** The callback of the [finally] block's [setTimeout]. *)
Definition reenable_button (v : Popup) : Popup :=
  {| dataDisplay := dataDisplay v;
     status_text :=
       if negb (JS.includes (status_text v) "Error") then "" else status_text v;
     clearButton_disabled := false |}.

(** An entry of the engine's store as the popup finds it. *)
Definition item_of (v : Stored) : Item :=
  match v with
  | number n => item_number n
  | characters _ => item_other
  end.

(** The object a read of the whole store gives for the engine's store:
    distinct keys, each with its value, in some order. *)
Definition reads_store (store : gmap string Stored) (items : Items) : Prop :=
  NoDup (Object_keys items)
  /\ forall key, item_at items key = item_of <$> (store !! key).

(** Rows in descending order of the time they stand for. *)
Definition descending (items : Items) (domains : list string) : Prop :=
  StronglySorted
    (fun a b => number_of (item_at items b) <= number_of (item_at items a)) domains.



(** A call that brings no domain of its own: every call but a direct
    [updateStoredTime] or [startTrackingNewDomain]. *)
Definition brings_no_domain (c : Call) : bool :=
  match c with
  | flush _ _ | startTracking _ _ => false
  | _ => true
  end.

(** A domain that came out of [getDomain]: the non-empty hostname of a URL
    that opens with [http:] or [https:] and that the constructor accepts. *)
Definition web_domain (new_URL : string -> option URL.t) (d : string) : Prop :=
  d <> ""
  /\ exists u parsed,
       (JS.startsWith u "http:" = true \/ JS.startsWith u "https:" = true)
       /\ new_URL u = Some parsed
       /\ URL.hostname parsed = d.

(** The record and the store hold web domains only. *)
Definition web_only (new_URL : string -> option URL.t) (s : State) : Prop :=
  (forall d, domain (activeTabInfo s) = Some d -> web_domain new_URL d)
  /\ (forall k, is_Some (storage s !! k) -> web_domain new_URL k).

(** Every number on record is positive, and a string is on record only
    under a key that names a member of [Object.prototype]. *)
Definition positive_entries (store : gmap string Stored) : Prop :=
  forall k v, store !! k = Some v ->
              match v with
              | number n => 0 < n
              | characters _ => is_Some (Object_prototype k)
              end.

(* ===================================================================== *)
(** * stopTrackingCurrentDomain between its awaits *)
(* ===================================================================== *)

(** Where a call of [stopTrackingCurrentDomain] stands: called and not yet
    run; suspended inside [updateStoredTime] on the promise of
    [chrome.storage.local.get] or of [chrome.storage.local.set]; suspended
    on the promise of [updateStoredTime], which has returned; returned. *)
Inductive StopPhase : Type :=
| stop_called
| awaits_get (domain : string) (timeSpentMs : Z)
| awaits_set (domain : string) (newTotalTime : Stored)
| awaits_updateStoredTime
| stop_returned.

(** The call runs from where it stands to its next [await], on the record
    and the store as they are by then.  [now] is what [Date.now()] returns
    when the call starts; [io] says which promise of the store rejects. *)
Definition stop_resume (io : StorageIO) (now : Z) (phase : StopPhase) (s : State)
    : StopPhase * State :=
  match phase with
  | stop_called =>
      let info := activeTabInfo s in
      match domain info, startTime info with
      | Some d, Some start =>
          if JS.truthy_string (Some d) && JS.truthy_number (Some start) then
            let endTime := now in
            let timeSpentMs := JS.sub endTime start in
            if negb (JS.truthy_string (Some d)) || (timeSpentMs <=? 0)
            then (awaits_updateStoredTime, s)
            else (awaits_get d timeSpentMs, s)
          else (stop_returned, s)
      | _, _ => (stop_returned, s)
      end
  | awaits_get d timeSpentMs =>
      match storage_get io (storage s) d with
      | Ok data =>
          let currentTotalTime := or_zero data in
          let newTotalTime := plus currentTotalTime timeSpentMs in
          (awaits_set d newTotalTime, s)
      | Throw _ => (awaits_updateStoredTime, s)
      end
  | awaits_set d newTotalTime =>
      match storage_set io (storage s) d newTotalTime with
      | Ok store' =>
          (awaits_updateStoredTime,
           {| activeTabInfo := activeTabInfo s; storage := store' |})
      | Throw _ => (awaits_updateStoredTime, s)
      end
  | awaits_updateStoredTime =>
      (stop_returned, {| activeTabInfo := cleared; storage := storage s |})
  | stop_returned => (stop_returned, s)
  end.

(** One call resumed [turns] times with no other code in between. *)
Fixpoint stop_alone (turns : nat) (io : StorageIO) (now : Z) (phase : StopPhase)
    (s : State) : StopPhase * State :=
  match turns with
  | O => (phase, s)
  | S turns' =>
      let '(phase', s') := stop_resume io now phase s in
      stop_alone turns' io now phase' s'
  end.

(** Two calls in flight on the one record and the one store: the schedule
    says which of them runs to its next [await]. *)
Inductive Turn : Type := first_call | second_call.

Fixpoint stop_overlapped (io1 : StorageIO) (now1 : Z) (io2 : StorageIO) (now2 : Z)
    (schedule : list Turn) (phase1 phase2 : StopPhase) (s : State)
    : StopPhase * StopPhase * State :=
  match schedule with
  | [] => (phase1, phase2, s)
  | first_call :: rest =>
      let '(phase1', s') := stop_resume io1 now1 phase1 s in
      stop_overlapped io1 now1 io2 now2 rest phase1' phase2 s'
  | second_call :: rest =>
      let '(phase2', s') := stop_resume io2 now2 phase2 s in
      stop_overlapped io1 now1 io2 now2 rest phase1 phase2' s'
  end.

(** Every number on record is a positive double. *)
Definition positive_doubles (store : gmap string Stored) : Prop :=
  forall k n, store !! k = Some (number n) -> 0 < n /\ JS.to_double n = n.

(* ===================================================================== *)
(** * Facts about strings *)
(* ===================================================================== *)

Section StringFacts.

Implicit Types (s t u : string) (c : ascii).


Lemma app_cons c s t : String c s +:+ t = String c (s +:+ t).
Proof. reflexivity. Qed.


Lemma is_empty_true s : JS.is_empty s = true <-> s = "".
Proof. destruct s; simpl; split; congruence. Qed.


(** [startsWith] is the prefix relation. *)
Lemma startsWith_app s p : JS.startsWith s p = true <-> exists r, s = p +:+ r.
Proof.
  revert s; induction p as [|a p IH]; intros s; simpl.
  - split; [intros _; now exists s | reflexivity].
  - destruct s as [|c s].
    + split; [discriminate | intros [r Hr]; discriminate].
    + destruct (Ascii.eqb_spec c a) as [->|Hne].
      * rewrite IH. split; intros [r Hr]; exists r.
        -- rewrite app_cons. now rewrite Hr.
        -- rewrite app_cons in Hr. now injection Hr.
      * split; [discriminate|]. intros [r Hr].
        rewrite app_cons in Hr. injection Hr as Hc _. contradiction.
Qed.








(** The numeral denotes the number it was made from. *)
Lemma toString_value (n : Z) :
  option_map Z.of_int (NilEmpty.int_of_string (JS.toString n)) = Some n.
Proof.
  unfold JS.toString. rewrite NilEmpty.isi. simpl.
  now rewrite DecimalZ.of_to.
Qed.

End StringFacts.

(* ===================================================================== *)
(** * Facts about the formatter *)
(* ===================================================================== *)







(* ===================================================================== *)
(** * Facts about the store *)
(* ===================================================================== *)

Section StoreFacts.

Implicit Types (store : gmap string Stored) (d : option string) (k : string).

(** Doubles hold the safe integers, and rounding keeps the sign. *)
Lemma to_double_safe x : safe_integer x -> JS.to_double x = x.
Proof.
  unfold safe_integer, MAX_SAFE_INTEGER, JS.to_double. intros H.
  destruct (Z.leb_spec (Z.abs x) (2 ^ 53)); [reflexivity | lia].
Qed.

Lemma to_double_sign x : (0 < x -> 0 < JS.to_double x) /\ (x <= 0 -> JS.to_double x <= 0).
Proof.
  unfold JS.to_double. destruct (Z.leb_spec (Z.abs x) (2 ^ 53)) as [|Hbig]; [lia|].
  cbv zeta. set (a := Z.abs x) in *. set (q := 2 ^ (Z.log2 a - 52)).
  assert (0 < a) as Ha by lia.
  assert (53 <= Z.log2 a) as Hlog by (apply Z.log2_le_pow2; lia).
  assert (0 < q) as Hq by (apply Z.pow_pos_nonneg; lia).
  assert (q <= a) as Hqa.
  { transitivity (2 ^ Z.log2 a); [apply Z.pow_le_mono_r; lia|].
    apply Z.log2_spec. assumption. }
  assert (1 <= a / q) as Hm.
  { apply Z.div_le_lower_bound; lia. }
  set (rounded := if 2 * (a mod q) <? q then a / q
                  else if q <? 2 * (a mod q) then a / q + 1
                  else if Z.even (a / q) then a / q else a / q + 1).
  assert (1 <= rounded) as Hr.
  { subst rounded. repeat (destruct (_ <? _)); try destruct (Z.even _); lia. }
  assert (0 < rounded * q) by nia.
  split; intros Hx.
  - rewrite Z.sgn_pos by assumption. lia.
  - rewrite Z.sgn_neg by lia. lia.
Qed.

Lemma sub_exact now start : safe_integer (now - start) -> JS.sub now start = now - start.
Proof. apply to_double_safe. Qed.

Lemma sub_not_positive now start : now <= start -> JS.sub now start <= 0.
Proof. intros H. apply to_double_sign. lia. Qed.

Lemma or_zero_numeric store k :
  is_numeric (data_at store k) = true -> or_zero (data_at store k) = number (stored store k).
Proof.
  unfold data_at, stored. destruct (store !! k) as [[n|s]|]; simpl; try discriminate.
  - intros _. destruct (Z.eqb_spec n 0); simpl; congruence.
  - destruct (Object_prototype k); [discriminate | reflexivity].
Qed.

(** A falsy domain or a non-positive delta: nothing is read or written. *)
Lemma updateStoredTime_skip io d ms store :
  JS.truthy_string d = false \/ ms <= 0 -> updateStoredTime io d ms store = store.
Proof.
  intros H. unfold updateStoredTime. destruct d as [k|]; [|reflexivity].
  destruct H as [-> | H]; [reflexivity|].
  destruct (Z.leb_spec ms 0); [|lia]. now rewrite orb_true_r.
Qed.

(** A rejected [get] or [set] leaves the store as it was. *)
Lemma updateStoredTime_rejected io d ms store :
  io <> io_ok -> updateStoredTime io d ms store = store.
Proof.
  intros Hio. unfold updateStoredTime. destruct d as [k|]; [|reflexivity].
  destruct (_ || _); [reflexivity|]. now destruct io.
Qed.

(** Otherwise the new value is written under the domain. *)
Lemma updateStoredTime_writes k ms store :
  k <> "" -> 0 < ms ->
  updateStoredTime io_ok (Some k) ms store
  = <[k := plus (or_zero (data_at store k)) ms]> store.
Proof.
  intros Hk Hms. unfold updateStoredTime.
  assert (JS.truthy_string (Some k) = true) as -> by now destruct k.
  destruct (Z.leb_spec ms 0); [lia|]. reflexivity.
Qed.

(** For a domain whose entry is a number, or that has none and names no
    inherited member, the entry grows by the delta. *)
Lemma updateStoredTime_adds k ms store :
  k <> "" -> 0 < ms ->
  is_numeric (data_at store k) = true -> safe_integer (stored store k + ms) ->
  updateStoredTime io_ok (Some k) ms store = <[k := number (stored store k + ms)]> store.
Proof.
  intros Hk Hms Hnum Hsafe. rewrite updateStoredTime_writes by assumption.
  rewrite or_zero_numeric by assumption. unfold plus, JS.add.
  now rewrite to_double_safe.
Qed.

(** In every case the store is either untouched or one entry is written. *)
Lemma updateStoredTime_cases io d ms store :
  updateStoredTime io d ms store = store
  \/ exists k, d = Some k /\ 0 < ms
       /\ updateStoredTime io d ms store
          = <[k := plus (or_zero (data_at store k)) ms]> store.
Proof.
  destruct d as [k|]; [|now left].
  destruct (JS.truthy_string (Some k)) eqn:Hk;
    [|left; apply updateStoredTime_skip; now left].
  destruct (Z.leb_spec ms 0); [left; apply updateStoredTime_skip; now right|].
  destruct io; [right | left; now apply updateStoredTime_rejected ..].
  exists k. repeat split; [assumption|].
  apply updateStoredTime_writes; [|assumption]. now destruct k.
Qed.

Lemma stored_insert store k v k' :
  stored (<[k := number v]> store) k' = if decide (k = k') then v else stored store k'.
Proof. unfold stored. rewrite lookup_insert. now case_decide. Qed.

End StoreFacts.

(* ===================================================================== *)
(** * Facts about the engine *)
(* ===================================================================== *)

Section EngineFacts.

Variable new_URL : string -> option URL.t.

Implicit Types (s : State) (p : Platform) (io : StorageIO).

(** ** stopTrackingCurrentDomain *)

Lemma stop_not_tracking io now s :
  tracking s = false -> stopTrackingCurrentDomain io now s = s.
Proof.
  unfold tracking, stopTrackingCurrentDomain. intros ->.
  now destruct (startTime (activeTabInfo s)).
Qed.

Lemma stop_tracking io now s d start :
  domain (activeTabInfo s) = Some d -> d <> "" ->
  startTime (activeTabInfo s) = Some start -> start <> 0 ->
  stopTrackingCurrentDomain io now s =
    {| activeTabInfo := cleared;
       storage := updateStoredTime io (Some d) (JS.sub now start) (storage s) |}.
Proof.
  intros Hd Hne Hs Hs0. unfold stopTrackingCurrentDomain. rewrite Hd, Hs.
  assert (JS.truthy_string (Some d) = true) as -> by now destruct d.
  assert (JS.truthy_number (Some start) = true) as ->.
  { simpl. now destruct (Z.eqb_spec start 0). }
  reflexivity.
Qed.

Lemma tracking_inv s :
  tracking s = true ->
  exists d start, domain (activeTabInfo s) = Some d /\ d <> ""
                  /\ startTime (activeTabInfo s) = Some start /\ start <> 0.
Proof.
  unfold tracking. intros H. apply andb_true_iff in H as [Hd Hs].
  destruct (domain (activeTabInfo s)) as [d|]; [|discriminate].
  destruct (startTime (activeTabInfo s)) as [start|]; [|discriminate].
  exists d, start. simpl in *. repeat split; try reflexivity.
  - now destruct d.
  - destruct (Z.eqb_spec start 0); [discriminate | assumption].
Qed.

Lemma stop_cases io now s :
  stopTrackingCurrentDomain io now s = s
  \/ exists d ms,
       stopTrackingCurrentDomain io now s =
         {| activeTabInfo := cleared;
            storage := updateStoredTime io d ms (storage s) |}.
Proof.
  destruct (tracking s) eqn:E; [right | left; now apply stop_not_tracking].
  destruct (tracking_inv s E) as (d & start & Hd & Hne & Hs & Hs0).
  exists (Some d), (JS.sub now start). now apply stop_tracking.
Qed.

Lemma stop_not_tracking_after io now s :
  tracking (stopTrackingCurrentDomain io now s) = false.
Proof.
  destruct (tracking s) eqn:E; [|now rewrite stop_not_tracking].
  destruct (tracking_inv s E) as (d & start & Hd & Hne & Hs & Hs0).
  now rewrite (stop_tracking io now s d start).
Qed.

Lemma stop_idempotent io now io' now' s :
  stopTrackingCurrentDomain io' now' (stopTrackingCurrentDomain io now s)
  = stopTrackingCurrentDomain io now s.
Proof. apply stop_not_tracking, stop_not_tracking_after. Qed.

Lemma stop_repeatedly_not_tracking readings s :
  tracking s = false -> stop_repeatedly readings s = s.
Proof.
  intros H. induction readings as [|[io now] rest IH]; [reflexivity|].
  simpl. now rewrite stop_not_tracking.
Qed.

(** ** The store along a call *)

Lemma store_step_refl store : store_step store store.
Proof. exists io_ok, None, 0. reflexivity. Qed.

Lemma stop_store_step io now s :
  store_step (storage s) (storage (stopTrackingCurrentDomain io now s)).
Proof.
  destruct (stop_cases io now s) as [-> | (d & ms & ->)]; [apply store_step_refl|].
  now exists io, d, ms.
Qed.

Lemma start_storage now id d s :
  storage (startTrackingNewDomain now id d s) = storage s.
Proof. unfold startTrackingNewDomain. now destruct (negb _). Qed.

Lemma handleTabChange_cases p id s :
  let stopped := stopTrackingCurrentDomain (storage_io p) (Date_now p) s in
  handleTabChange new_URL p id s = s
  \/ handleTabChange new_URL p id s = stopped
  \/ exists d, handleTabChange new_URL p id s
               = startTrackingNewDomain (Date_now_start p) id d stopped.
Proof.
  intros stopped. unfold handleTabChange.
  destruct (tabs_get p id) as [tab|message]; simpl.
  - destruct (not_ready tab).
    + destruct (tabId_is _ _); auto.
    + destruct (strict_equal _ _); [auto|].
      destruct (JS.truthy_string _); [|auto]. right; right. eauto.
  - destruct (JS.includes _ _); [|auto]. destruct (tabId_is _ _); auto.
Qed.

Lemma handleTabChange_store_step p id s :
  store_step (storage s) (storage (handleTabChange new_URL p id s)).
Proof.
  destruct (handleTabChange_cases p id s) as [-> | [-> | [d ->]]].
  - apply store_step_refl.
  - apply stop_store_step.
  - rewrite start_storage. apply stop_store_step.
Qed.

Lemma step_store_step p c s :
  store_step (storage s) (storage (step new_URL p c s)).
Proof.
  destruct c; simpl.
  - now exists (storage_io p), d, elapsedMs.
  - apply stop_store_step.
  - rewrite start_storage. apply store_step_refl.
  - apply handleTabChange_store_step.
  - apply handleTabChange_store_step.
  - unfold onUpdated.
    repeat (destruct (_ && _));
      first [apply handleTabChange_store_step | apply store_step_refl].
  - unfold onRemoved. destruct (tabId_is _ _);
      [apply stop_store_step | apply store_step_refl].
  - unfold windows_onRemoved. destruct (JS.truthy_number _);
      [apply stop_store_step | apply store_step_refl].
  - unfold windows_onFocusChanged. destruct (_ =? _); [apply stop_store_step|].
    destruct (tabs_query p) as [[id|]|]; simpl;
      first [apply handleTabChange_store_step | apply store_step_refl].
  - unfold onStartup. destruct (tabs_query p) as [[id|]|];
      first [apply handleTabChange_store_step | apply store_step_refl].
  - unfold onInstalled. destruct (tabs_query p) as [[id|]|];
      first [apply handleTabChange_store_step | apply store_step_refl].
Qed.

End EngineFacts.

(* ===================================================================== *)
(** * The record along a run *)
(* ===================================================================== *)

Section RecordFacts.

Variable new_URL : string -> option URL.t.

Lemma stop_well_formed io now s :
  well_formed (activeTabInfo s) ->
  well_formed (activeTabInfo (stopTrackingCurrentDomain io now s)).
Proof.
  intros H. destruct (stop_cases io now s) as [-> | (d & ms & ->)];
    [assumption | now left].
Qed.

Lemma start_well_formed now id d s :
  well_formed (activeTabInfo s) ->
  well_formed (activeTabInfo (startTrackingNewDomain now id d s)).
Proof.
  intros H. unfold startTrackingNewDomain.
  destruct d as [k|]; [|assumption]. destruct k as [|c k]; [assumption|].
  right. exists id, (String c k), now. split; [discriminate | reflexivity].
Qed.

Lemma handleTabChange_well_formed p id s :
  well_formed (activeTabInfo s) ->
  well_formed (activeTabInfo (handleTabChange new_URL p id s)).
Proof.
  intros H.
  destruct (handleTabChange_cases new_URL p id s) as [-> | [-> | [d ->]]].
  - assumption.
  - now apply stop_well_formed.
  - now apply start_well_formed, stop_well_formed.
Qed.

Lemma step_well_formed p c s :
  well_formed (activeTabInfo s) -> well_formed (activeTabInfo (step new_URL p c s)).
Proof.
  intros H. destruct c; simpl.
  - assumption.
  - now apply stop_well_formed.
  - now apply start_well_formed.
  - now apply handleTabChange_well_formed.
  - now apply handleTabChange_well_formed.
  - unfold onUpdated.
    repeat (destruct (_ && _)); try assumption; now apply handleTabChange_well_formed.
  - unfold onRemoved. destruct (tabId_is _ _); [now apply stop_well_formed | assumption].
  - unfold windows_onRemoved. destruct (JS.truthy_number _);
      [now apply stop_well_formed | assumption].
  - unfold windows_onFocusChanged. destruct (_ =? _); [now apply stop_well_formed|].
    destruct (tabs_query p) as [[id|]|]; simpl;
      try assumption; now apply handleTabChange_well_formed.
  - unfold onStartup. destruct (tabs_query p) as [[id|]|];
      try assumption; now apply handleTabChange_well_formed.
  - unfold onInstalled. destruct (tabs_query p) as [[id|]|];
      try assumption; now apply handleTabChange_well_formed.
Qed.

(** The invariant of the data model: along every run from a fresh install
    [domain] and [startTime] are both present or both absent. *)
Lemma run_well_formed calls s :
  well_formed (activeTabInfo s) -> well_formed (activeTabInfo (run new_URL calls s)).
Proof.
  revert s; induction calls as [|[p c] rest IH]; intros s H; simpl; [assumption|].
  now apply IH, step_well_formed.
Qed.

Lemma run_domain_iff_startTime calls :
  let info := activeTabInfo (run new_URL calls initial) in
  is_Some (domain info) <-> is_Some (startTime info).
Proof.
  intros info.
  destruct (run_well_formed calls initial) as [E | (id & d & now & _ & E)];
    [now left | |]; subst info; rewrite E; simpl.
  - split; intros [x Hx]; discriminate.
  - split; intros _; eauto.
Qed.

End RecordFacts.

(* ===================================================================== *)
(** * Facts about the reference URL constructor and getDomain *)
(* ===================================================================== *)

Section URLFacts.

(** The protocol of a parsed URL is the scheme the scheme state read. *)
Lemma construct_protocol input u :
  URL.construct input = Some u ->
  exists scheme rest,
    URL.scheme_start_state (URL.preprocess input) = Some (scheme, rest)
    /\ URL.protocol u = scheme +:+ ":".
Proof.
  unfold URL.construct, URL.parse.
  destruct (URL.scheme_start_state _) as [[scheme rest]|]; [|discriminate].
  destruct (URL.is_special_not_file scheme); [|discriminate].
  destruct (URL.special_host rest); try discriminate.
  intros [= <-]. now exists scheme, rest.
Qed.

Lemma preprocess_http r :
  URL.preprocess ("http:" +:+ r)
  = "http:" +:+ URL.remove_tab_newline (URL.strip_trailing r).
Proof. reflexivity. Qed.

Lemma preprocess_https r :
  URL.preprocess ("https:" +:+ r)
  = "https:" +:+ URL.remove_tab_newline (URL.strip_trailing r).
Proof. reflexivity. Qed.

(** An input that opens with [http:] or [https:] has that protocol. *)
Lemma construct_http r u :
  URL.construct ("http:" +:+ r) = Some u -> URL.protocol u = "http:".
Proof.
  intros H. apply construct_protocol in H as (scheme & rest & Hs & ->).
  rewrite preprocess_http in Hs. now injection Hs as <- _.
Qed.

Lemma construct_https r u :
  URL.construct ("https:" +:+ r) = Some u -> URL.protocol u = "https:".
Proof.
  intros H. apply construct_protocol in H as (scheme & rest & Hs & ->).
  rewrite preprocess_https in Hs. now injection Hs as <- _.
Qed.

Variable new_URL : string -> option URL.t.

Lemma getDomain_prefix url d :
  getDomain new_URL url = Some d ->
  exists u, url = Some u
            /\ (JS.startsWith u "http:" = true \/ JS.startsWith u "https:" = true).
Proof.
  unfold getDomain. destruct url as [u|]; [|discriminate].
  destruct (JS.startsWith u "http:") eqn:E1; [intros _; exists u; auto|].
  destruct (JS.startsWith u "https:") eqn:E2; [intros _; exists u; auto|].
  simpl. now rewrite orb_true_r.
Qed.

Lemma getDomain_accepts u parsed :
  JS.startsWith u "http:" = true \/ JS.startsWith u "https:" = true ->
  new_URL u = Some parsed ->
  getDomain new_URL (Some u) = Some (URL.hostname parsed).
Proof.
  intros Hpre Hparse. unfold getDomain.
  assert (JS.truthy_string (Some u) = true) as ->.
  { destruct u; [|reflexivity]. destruct Hpre; discriminate. }
  rewrite Hparse.
  destruct Hpre as [-> | ->]; simpl negb; rewrite ?andb_false_r; reflexivity.
Qed.

Lemma getDomain_rejects_prefix u :
  JS.startsWith u "http:" = false -> JS.startsWith u "https:" = false ->
  getDomain new_URL (Some u) = None.
Proof. intros H1 H2. unfold getDomain. rewrite H1, H2. simpl. now rewrite orb_true_r. Qed.

Lemma getDomain_throwing u : new_URL u = None -> getDomain new_URL (Some u) = None.
Proof. intros H. unfold getDomain. rewrite H. simpl. now destruct (_ || _). Qed.

End URLFacts.

(* ===================================================================== *)
(** * The formatter: properties of the specification *)
(* ===================================================================== *)






(* ===================================================================== *)
(** * getDomain: properties of the specification *)
(* ===================================================================== *)

(** C4, as the specification words it, fails: the scheme test of
    [getDomain] compares the raw text with the lower-case prefixes, so a
    valid HTTP URL written with an upper-case scheme has a hostname and
    still yields no domain. *)
Lemma getDomain_uppercase_scheme :
  URL.parse "HTTP://A.EXAMPLE/x"
    = URL.Parsed {| URL.protocol := "http:"; URL.hostname := "a.example" |}
  /\ getDomain URL.construct (Some "HTTP://A.EXAMPLE/x") = None.
Proof. split; reflexivity. Qed.

(** C4, amended.  For every URL string that opens with the exact prefix
    [http:] or [https:] and that the URL constructor accepts, [getDomain]
    returns exactly the hostname of the parsed URL; a string that opens
    with neither prefix yields none, whatever it parses to. *)
Theorem getDomain_returns_hostname (new_URL : string -> option URL.t) :
  (forall u parsed,
      JS.startsWith u "http:" = true \/ JS.startsWith u "https:" = true ->
      new_URL u = Some parsed ->
      getDomain new_URL (Some u) = Some (URL.hostname parsed))
  /\ (forall u,
        JS.startsWith u "http:" = false -> JS.startsWith u "https:" = false ->
        getDomain new_URL (Some u) = None).
Proof.
  split.
  - apply getDomain_accepts.
  - apply getDomain_rejects_prefix.
Qed.

Lemma getDomain_returns_hostname_witness :
  getDomain URL.construct (Some "https://www.Example.com:8443/a?b#c")
    = Some "www.example.com"
  /\ getDomain URL.construct (Some "Https://www.example.com/") = None.
Proof.
  destruct (getDomain_returns_hostname URL.construct) as (Haccepted & Hrefused).
  split.
  - apply (Haccepted "https://www.Example.com:8443/a?b#c"
             {| URL.protocol := "https:"; URL.hostname := "www.example.com" |});
      [right; reflexivity | reflexivity].
  - apply Hrefused; reflexivity.
Defined.

(** C5.  [getDomain] returns none for an absent or empty input, for an
    input the URL constructor rejects (the throw is caught), and for a URL
    whose scheme is neither http nor https.  The constructor is any one
    that reads the scheme off the text, as the platform's does. *)
Theorem getDomain_none (new_URL : string -> option URL.t) :
  (forall r parsed, new_URL ("http:" +:+ r) = Some parsed -> URL.protocol parsed = "http:") ->
  (forall r parsed, new_URL ("https:" +:+ r) = Some parsed -> URL.protocol parsed = "https:") ->
  getDomain new_URL None = None
  /\ getDomain new_URL (Some "") = None
  /\ (forall u, new_URL u = None -> getDomain new_URL (Some u) = None)
  /\ (forall u parsed,
        new_URL u = Some parsed ->
        URL.protocol parsed <> "http:" -> URL.protocol parsed <> "https:" ->
        getDomain new_URL (Some u) = None).
Proof.
  intros Hhttp Hhttps. repeat split; try reflexivity.
  - apply getDomain_throwing.
  - intros u parsed Hparse Hn1 Hn2. apply getDomain_rejects_prefix.
    + destruct (JS.startsWith u "http:") eqn:E; [|reflexivity].
      apply startsWith_app in E as [r ->]. now apply Hhttp in Hparse.
    + destruct (JS.startsWith u "https:") eqn:E; [|reflexivity].
      apply startsWith_app in E as [r ->]. now apply Hhttps in Hparse.
Qed.

Lemma getDomain_none_witness :
  getDomain URL.construct (Some "http://") = None
  /\ getDomain URL.construct (Some "ftp://files.example/pub") = None.
Proof.
  destruct (getDomain_none URL.construct construct_http construct_https)
    as (_ & _ & Hrejected & Hscheme).
  split.
  - apply Hrejected. reflexivity.
  - apply (Hscheme "ftp://files.example/pub"
             {| URL.protocol := "ftp:"; URL.hostname := "files.example" |});
      [reflexivity | discriminate | discriminate].
Defined.

(* ===================================================================== *)
(** * The engine: properties of the specification *)
(* ===================================================================== *)

(** C6.  [updateStoredTime] with an elapsed time of zero or less, or with an
    absent domain, leaves the store exactly as it was, whatever the store
    would have answered. *)
Theorem updateStoredTime_no_op :
  (forall io d ms store, ms <= 0 -> updateStoredTime io d ms store = store)
  /\ (forall io ms store, updateStoredTime io None ms store = store).
Proof.
  split.
  - intros io d ms store H. apply updateStoredTime_skip. now right.
  - reflexivity.
Qed.

Lemma updateStoredTime_no_op_witness :
  updateStoredTime io_ok (Some "a.example") 0 {[ "a.example" := number 7000 ]}
    = {[ "a.example" := number 7000 ]}
  /\ updateStoredTime io_ok (Some "b.example") (-250) {[ "a.example" := number 7000 ]}
    = {[ "a.example" := number 7000 ]}.
Proof.
  destruct updateStoredTime_no_op as (Hskip & _).
  split; apply Hskip; lia.
Defined.

(** C7.  With no active record, that is with [domain] and [startTime]
    absent, [stopTrackingCurrentDomain] changes neither the record nor the
    store, and any number of calls in a row leaves the state as one call
    does. *)
Theorem stopTracking_idle_no_op (s : State) (readings : list (StorageIO * Z)) :
  domain (activeTabInfo s) = None ->
  startTime (activeTabInfo s) = None ->
  (forall io now, stopTrackingCurrentDomain io now s = s)
  /\ stop_repeatedly readings s = s.
Proof.
  intros Hd Hs.
  assert (tracking s = false) as Hidle by (unfold tracking; now rewrite Hd).
  split.
  - intros io now. now apply stop_not_tracking.
  - now apply stop_repeatedly_not_tracking.
Qed.

Lemma stopTracking_idle_no_op_witness :
  stop_repeatedly [(io_ok, 10); (io_set_rejects, 20); (io_ok, 30)]
    {| activeTabInfo := cleared; storage := {[ "a.example" := number 7000 ]} |}
  = {| activeTabInfo := cleared; storage := {[ "a.example" := number 7000 ]} |}.
Proof.
  apply (stopTracking_idle_no_op
           {| activeTabInfo := cleared; storage := {[ "a.example" := number 7000 ]} |});
    reflexivity.
Defined.

(** C8.  When [stopTrackingCurrentDomain] runs with an active record and
    the store rejects the read or the write, the record is reset all the
    same, the elapsed time is dropped (the store keeps its content) and the
    call ends normally, in the idle state. *)
Theorem stopTracking_storage_failure (io : StorageIO) (now : Z) (s : State) :
  tracking s = true ->
  io <> io_ok ->
  stopTrackingCurrentDomain io now s
    = {| activeTabInfo := cleared; storage := storage s |}
  /\ idle (stopTrackingCurrentDomain io now s).
Proof.
  intros Htr Hio.
  destruct (tracking_inv s Htr) as (d & start & Hd & Hne & Hs & Hs0).
  rewrite (stop_tracking io now s d start) by assumption.
  rewrite updateStoredTime_rejected by assumption. split; reflexivity.
Qed.

Lemma stopTracking_storage_failure_witness :
  stopTrackingCurrentDomain io_set_rejects 6000 (on_a_example 1000 7000)
  = {| activeTabInfo := cleared; storage := {[ "a.example" := number 7000 ]} |}.
Proof.
  apply (stopTracking_storage_failure io_set_rejects 6000 (on_a_example 1000 7000));
    [reflexivity | discriminate].
Defined.

(** C3 fails on the code.  The read [data[domain] || 0] of
    [updateStoredTime] is commented "Default to 0 if not found", but for a
    domain that names a member of [Object.prototype] and has no entry yet
    the read finds the inherited member, and the sum written back is a
    string.  The host of [http://constructor/] is such a domain: after a
    visit of 5000 ms its entry is the text of the [Object] function followed
    by 5000, not a number, and the next flush appends to it. *)
Theorem constructor_entry_is_not_a_number :
  let visit :=
    [(browsing 1 "http://constructor/" io_ok 1000, reconcile 1);
     (browsing 1 "https://b.example/y" io_ok 6000, reconcile 1)] in
  let visited := storage (run URL.construct visit initial) in
  getDomain URL.construct (Some "http://constructor/") = Some "constructor"
  /\ data_at ∅ "constructor" = object "function Object() { [native code] }"
  /\ visited = {[ "constructor" := characters "function Object() { [native code] }5000" ]}
  /\ updateStoredTime io_ok (Some "constructor") 3000 visited
     = {[ "constructor" := characters "function Object() { [native code] }50003000" ]}.
Proof. repeat split; vm_compute; reflexivity. Qed.

(** C2, as the specification words it, fails: an unexpected rejection of the
    lookup of tab 2 stops the tracking of tab 1. *)
Lemma unexpected_error_stops_other_tab :
  let p := lookup_rejects
             "Tabs cannot be edited right now (user may be dragging a tab)." 6000 in
  let s := on_a_example 1000 7000 in
  tabId_is (activeTabInfo s) 2 = false
  /\ activeTabInfo (handleTabChange URL.construct p 2 s) = cleared
  /\ storage (handleTabChange URL.construct p 2 s) !! "a.example" = Some (number 12000)
  /\ handleTabChange URL.construct p 2 s <> s.
Proof. repeat split; try reflexivity. discriminate. Qed.

(** C2, amended.  When the lookup is rejected with an error other than
    "No tab with id", [handleTabChange] runs [stopTrackingCurrentDomain]
    whatever tab was looked up: an active record is flushed and reset even
    if it belongs to another tab, and the state is unchanged only when no
    record is active. *)
Theorem unexpected_error_stops_tracking
    (new_URL : string -> option URL.t) (p : Platform) (id : Z) (s : State)
    (message : string) :
  tabs_get p id = Throw message ->
  JS.includes message "No tab with id" = false ->
  handleTabChange new_URL p id s
    = stopTrackingCurrentDomain (storage_io p) (Date_now p) s
  /\ (tracking s = true -> idle (handleTabChange new_URL p id s))
  /\ (tracking s = false -> handleTabChange new_URL p id s = s).
Proof.
  intros Hget Hmsg.
  assert (handleTabChange new_URL p id s
          = stopTrackingCurrentDomain (storage_io p) (Date_now p) s) as E.
  { unfold handleTabChange. rewrite Hget. simpl. now rewrite Hmsg. }
  rewrite E. repeat split.
  - intros Htr. destruct (tracking_inv s Htr) as (d & start & Hd & Hne & Hs & Hs0).
    now rewrite (stop_tracking _ _ s d start).
  - apply stop_not_tracking.
Qed.

Lemma unexpected_error_stops_tracking_witness :
  handleTabChange URL.construct (lookup_rejects "The browser is shutting down." 6000) 2
    (on_a_example 1000 7000)
  = stopTrackingCurrentDomain io_ok 6000 (on_a_example 1000 7000).
Proof.
  apply (unexpected_error_stops_tracking URL.construct
           (lookup_rejects "The browser is shutting down." 6000) 2
           (on_a_example 1000 7000) "The browser is shutting down.");
    reflexivity.
Defined.

(** The sibling path: a "No tab with id" rejection stops the tracking only
    of the tab that was looked up. *)
Lemma closed_tab_stops_own_tracking
    (new_URL : string -> option URL.t) (p : Platform) (id : Z) (s : State)
    (message : string) :
  tabs_get p id = Throw message ->
  JS.includes message "No tab with id" = true ->
  handleTabChange new_URL p id s
  = if tabId_is (activeTabInfo s) id
    then stopTrackingCurrentDomain (storage_io p) (Date_now p) s
    else s.
Proof. intros Hget Hmsg. unfold handleTabChange. rewrite Hget. simpl. now rewrite Hmsg. Qed.

(** What a domain switch does, whatever the clock and the store do. *)
Lemma handleTabChange_switch
    (new_URL : string -> option URL.t) (p : Platform) (id : Z) (s : State) (t : Tab)
    (newDomain outgoing : string) (start : Z) :
  tabs_get p id = Ok (Some t) ->
  active t = true -> status t = "complete" ->
  getDomain new_URL (url t) = Some newDomain -> newDomain <> "" ->
  domain (activeTabInfo s) = Some outgoing -> outgoing <> "" ->
  startTime (activeTabInfo s) = Some start -> start <> 0 ->
  newDomain <> outgoing ->
  handleTabChange new_URL p id s
  = {| activeTabInfo :=
         {| tabId := Some id; domain := Some newDomain;
            startTime := Some (Date_now_start p) |};
       storage :=
         updateStoredTime (storage_io p) (Some outgoing) (JS.sub (Date_now p) start)
           (storage s) |}.
Proof.
  intros Hget Hact Hst Hdom Hnew Hout Hout_ne Hstart Hstart_ne Hdiff.
  destruct (getDomain_prefix new_URL _ _ Hdom) as (u & Hu & Hpre).
  assert (JS.truthy_string (url t) = true) as Hurl.
  { rewrite Hu. destruct u; [|reflexivity]. destruct Hpre; discriminate. }
  unfold handleTabChange. rewrite Hget. simpl.
  rewrite Hact, Hurl, Hst. simpl. rewrite Hdom, Hout. simpl.
  apply String.eqb_neq in Hdiff. rewrite Hdiff.
  rewrite (stop_tracking _ _ s outgoing start) by assumption.
  unfold startTrackingNewDomain. simpl.
  destruct newDomain; [congruence | reflexivity].
Qed.

(** The same step towards a page without domain: the flush is made, no
    new record is started. *)
Lemma handleTabChange_to_no_domain
    (new_URL : string -> option URL.t) (p : Platform) (id : Z) (s : State) (t : Tab)
    (outgoing : string) (start : Z) :
  tabs_get p id = Ok (Some t) ->
  active t = true -> status t = "complete" ->
  JS.truthy_string (url t) = true -> getDomain new_URL (url t) = None ->
  domain (activeTabInfo s) = Some outgoing -> outgoing <> "" ->
  startTime (activeTabInfo s) = Some start -> start <> 0 ->
  handleTabChange new_URL p id s
  = {| activeTabInfo := cleared;
       storage :=
         updateStoredTime (storage_io p) (Some outgoing) (JS.sub (Date_now p) start)
           (storage s) |}.
Proof.
  intros Hget Hact Hst Hurl Hdom Hout Hout_ne Hstart Hstart_ne.
  unfold handleTabChange. rewrite Hget. simpl.
  rewrite Hact, Hurl, Hst. simpl. rewrite Hdom, Hout. simpl.
  now apply stop_tracking.
Qed.

(** C1, as the specification words it, fails on three counts, each by a
    guard of the code.  Tab 1 is tracked on a.example since 1000 with 7000
    ms on record.  (1) The focused tab shows a page without domain at 6000:
    the 5000 ms are flushed but the record is emptied, it is not
    [{tabId, newDomain, startTime: now}].  (2) The tab shows b.example at
    6000 while the store rejects the write: nothing is added.  (3) The tab
    shows b.example while the clock reads 400, before the start time:
    nothing is added, where exactly [now - startTime] would take 600 off. *)
Lemma switch_without_full_flush :
  let s := on_a_example 1000 7000 in
  let to_settings := handleTabChange URL.construct
                       (browsing 1 "chrome://extensions/" io_ok 6000) 1 s in
  let rejected := handleTabChange URL.construct
                    (browsing 1 "https://b.example/y" io_set_rejects 6000) 1 s in
  let clock_back := handleTabChange URL.construct
                      (browsing 1 "https://b.example/y" io_ok 400) 1 s in
  (getDomain URL.construct (Some "chrome://extensions/") = None
   /\ stored (storage to_settings) "a.example" = 7000 + (6000 - 1000)
   /\ activeTabInfo to_settings = cleared)
  /\ (stored (storage rejected) "a.example" = 7000
      /\ stored (storage rejected) "a.example" <> 7000 + (6000 - 1000)
      /\ activeTabInfo rejected
         = {| tabId := Some 1; domain := Some "b.example"; startTime := Some 6000 |})
  /\ (stored (storage clock_back) "a.example" = 7000
      /\ stored (storage clock_back) "a.example" <> 7000 + (400 - 1000)
      /\ activeTabInfo clock_back
         = {| tabId := Some 1; domain := Some "b.example"; startTime := Some 400 |}).
Proof. repeat split; try reflexivity; vm_compute; discriminate. Qed.

(** C1, amended.  Take a reconcile step on a focused, navigation-complete
    tab whose URL yields a domain different from the tracked one, while a
    record with a non-empty domain and a non-zero start time is active.
    The new active record is [{tabId, newDomain, startTime}] with the clock
    reading taken when tracking starts, and the flush of the outgoing
    domain is made with the old record.  When the store serves the calls,
    the clock reading [now] is past the start time, the outgoing domain has
    a number on record (or has no entry and names no member of
    [Object.prototype]) and the elapsed time and the new total are safe
    integers, the entry of the outgoing domain grows by exactly
    [now - startTime] and no other entry changes; when the store rejects a
    call or [now] is not past the start time, the store is unchanged.  When
    the URL yields no domain the same flush is made and the record is reset
    to empty.  Concretely, tracking a.example from a time [T] other than 0
    and navigating the same focused tab to b.example at [T + 5000] adds
    5000 to a.example and leaves the record
    [{domain: b.example, startTime: T + 5000}]. *)
Theorem switch_flushes_outgoing_domain :
  (forall (new_URL : string -> option URL.t) (p : Platform) (id : Z) (s : State)
          (t : Tab) (newDomain outgoing : string) (start : Z),
      tabs_get p id = Ok (Some t) ->
      active t = true -> status t = "complete" ->
      getDomain new_URL (url t) = Some newDomain -> newDomain <> "" ->
      domain (activeTabInfo s) = Some outgoing -> outgoing <> "" ->
      startTime (activeTabInfo s) = Some start -> start <> 0 ->
      newDomain <> outgoing ->
      let s' := handleTabChange new_URL p id s in
      activeTabInfo s'
        = {| tabId := Some id; domain := Some newDomain;
             startTime := Some (Date_now_start p) |}
      /\ (storage_io p = io_ok -> start < Date_now p ->
            is_numeric (data_at (storage s) outgoing) = true ->
            exact_flush (stored (storage s) outgoing) start (Date_now p) ->
            storage s'
              = <[outgoing := number (stored (storage s) outgoing + (Date_now p - start))]>
                  (storage s))
      /\ (storage_io p <> io_ok \/ Date_now p <= start -> storage s' = storage s))
  /\ (forall (new_URL : string -> option URL.t) (p : Platform) (id : Z) (s : State)
             (t : Tab) (outgoing : string) (start : Z),
        tabs_get p id = Ok (Some t) ->
        active t = true -> status t = "complete" ->
        JS.truthy_string (url t) = true -> getDomain new_URL (url t) = None ->
        domain (activeTabInfo s) = Some outgoing -> outgoing <> "" ->
        startTime (activeTabInfo s) = Some start -> start <> 0 ->
        handleTabChange new_URL p id s
        = {| activeTabInfo := cleared;
             storage :=
               updateStoredTime (storage_io p) (Some outgoing) (JS.sub (Date_now p) start)
                 (storage s) |})
  /\ (forall T, T <> 0 ->
        run URL.construct
          [(browsing 1 "https://a.example/x" io_ok T, reconcile 1);
           (browsing 1 "https://b.example/y" io_ok (T + 5000), reconcile 1)]
          initial
        = {| activeTabInfo :=
               {| tabId := Some 1; domain := Some "b.example";
                  startTime := Some (T + 5000) |};
             storage := {[ "a.example" := number 5000 ]} |}).
Proof.
  split.
  - intros new_URL p id s t newDomain outgoing start
      Hget Hact Hst Hdom Hnew Hout Hout_ne Hstart Hstart_ne Hdiff s'.
    subst s'.
    rewrite (handleTabChange_switch new_URL p id s t newDomain outgoing start)
      by assumption.
    cbn [activeTabInfo storage]. split; [reflexivity|]. split.
    + intros -> Hlt Hnum [Hdelta Htotal]. rewrite sub_exact by assumption.
      apply updateStoredTime_adds; [assumption | lia | assumption | assumption].
    + intros [Hio | Hle].
      * now apply updateStoredTime_rejected.
      * apply updateStoredTime_skip. right. now apply sub_not_positive.
  - split; [exact handleTabChange_to_no_domain|].
    intros T HT. cbn [run step].
    assert (handleTabChange URL.construct (browsing 1 "https://a.example/x" io_ok T) 1
              initial
            = {| activeTabInfo :=
                   {| tabId := Some 1; domain := Some "a.example"; startTime := Some T |};
                 storage := ∅ |}) as -> by reflexivity.
    rewrite (handleTabChange_switch URL.construct _ 1 _
               (focused_complete "https://b.example/y") "b.example" "a.example" T);
      try reflexivity; try discriminate; try assumption.
    cbn [browsing storage_io Date_now Date_now_start storage activeTabInfo].
    f_equal. unfold JS.sub.
    replace (T + 5000 - T) with 5000 by lia. reflexivity.
Qed.

Lemma switch_flushes_outgoing_domain_witness :
  storage (handleTabChange URL.construct
             (browsing 1 "https://b.example/y" io_ok 6000) 1 (on_a_example 1000 7000))
  = <["a.example" := number 12000]> {[ "a.example" := number 7000 ]}
  /\ run URL.construct
       [(browsing 1 "https://a.example/x" io_ok 1700000000000, reconcile 1);
        (browsing 1 "https://b.example/y" io_ok 1700000005000, reconcile 1)]
       initial
     = {| activeTabInfo :=
            {| tabId := Some 1; domain := Some "b.example";
               startTime := Some 1700000005000 |};
          storage := {[ "a.example" := number 5000 ]} |}.
Proof.
  destruct switch_flushes_outgoing_domain as (Hswitch & _ & Hscenario).
  split.
  - destruct (Hswitch URL.construct (browsing 1 "https://b.example/y" io_ok 6000) 1
                (on_a_example 1000 7000) (focused_complete "https://b.example/y")
                "b.example" "a.example" 1000) as (_ & Hadd & _);
      [ reflexivity | reflexivity | reflexivity | reflexivity | discriminate
      | reflexivity | discriminate | reflexivity | discriminate | discriminate | ].
    apply Hadd; [reflexivity | simpl; lia | reflexivity | ].
    change (exact_flush 7000 1000 6000).
    unfold exact_flush, safe_integer, MAX_SAFE_INTEGER. lia.
  - apply (Hscenario 1700000000000). discriminate.
Defined.

(** The scenario of the specification read with the clock at 0 when
    tracking starts: a start time of 0 counts as no start time in
    [stopTrackingCurrentDomain], and the 5000 ms are not recorded. *)
Example scenario_from_clock_zero :
  run URL.construct
    [(browsing 1 "https://a.example/x" io_ok 0, reconcile 1);
     (browsing 1 "https://b.example/y" io_ok 5000, reconcile 1)]
    initial
  = {| activeTabInfo :=
         {| tabId := Some 1; domain := Some "b.example"; startTime := Some 5000 |};
       storage := ∅ |}.
Proof. reflexivity. Qed.

(* ===================================================================== *)
(** * Further properties of the engine *)
(* ===================================================================== *)

Section EngineMore.

Variable new_URL : string -> option URL.t.

Implicit Types (s : State) (p : Platform) (io : StorageIO).

Lemma updateStoredTime_other_key io d ms store k :
  d <> Some k -> updateStoredTime io d ms store !! k = store !! k.
Proof.
  intros Hd.
  destruct (updateStoredTime_cases io d ms store) as [-> | (k' & -> & _ & ->)];
    [reflexivity|].
  apply lookup_insert_ne. congruence.
Qed.

(** [stopTrackingCurrentDomain] writes under the domain of the record. *)
Lemma stop_storage io now s :
  storage (stopTrackingCurrentDomain io now s) = storage s
  \/ exists ms,
       storage (stopTrackingCurrentDomain io now s)
       = updateStoredTime io (domain (activeTabInfo s)) ms (storage s).
Proof.
  destruct (tracking s) eqn:E; [right | left; now rewrite stop_not_tracking].
  destruct (tracking_inv s E) as (d & start & Hd & Hne & Hs & Hs0).
  exists (JS.sub now start). rewrite (stop_tracking io now s d start) by assumption.
  now rewrite Hd.
Qed.

Lemma stop_other_key io now s k :
  domain (activeTabInfo s) <> Some k ->
  storage (stopTrackingCurrentDomain io now s) !! k = storage s !! k.
Proof.
  intros Hd. destruct (stop_storage io now s) as [-> | [ms ->]]; [reflexivity|].
  now apply updateStoredTime_other_key.
Qed.

Lemma handleTabChange_other_key p id s k :
  domain (activeTabInfo s) <> Some k ->
  storage (handleTabChange new_URL p id s) !! k = storage s !! k.
Proof.
  intros Hd.
  destruct (handleTabChange_cases new_URL p id s) as [-> | [-> | [d ->]]].
  - reflexivity.
  - now apply stop_other_key.
  - rewrite start_storage. now apply stop_other_key.
Qed.

(** X2.  A call other than a direct flush never changes the entry of a
    domain other than the one the record names when the call arrives: no
    time is ever credited to a domain that is not being tracked. *)
Theorem only_tracked_domain_gains p c s k :
  (forall d ms, c <> flush d ms) ->
  domain (activeTabInfo s) <> Some k ->
  storage (step new_URL p c s) !! k = storage s !! k.
Proof.
  intros Hc Hd. destruct c; simpl.
  - now destruct (Hc d elapsedMs).
  - now apply stop_other_key.
  - apply (f_equal (fun m => m !! k)), start_storage.
  - now apply handleTabChange_other_key.
  - now apply handleTabChange_other_key.
  - unfold onUpdated.
    repeat (destruct (_ && _)); try reflexivity; now apply handleTabChange_other_key.
  - unfold onRemoved. destruct (tabId_is _ _); [now apply stop_other_key | reflexivity].
  - unfold windows_onRemoved. destruct (JS.truthy_number _);
      [now apply stop_other_key | reflexivity].
  - unfold windows_onFocusChanged. destruct (_ =? _); [now apply stop_other_key|].
    destruct (tabs_query p) as [[id|]|]; simpl;
      try reflexivity; now apply handleTabChange_other_key.
  - unfold onStartup. destruct (tabs_query p) as [[id|]|];
      try reflexivity; now apply handleTabChange_other_key.
  - unfold onInstalled. destruct (tabs_query p) as [[id|]|];
      try reflexivity; now apply handleTabChange_other_key.
Qed.

(** [handleTabChange] by the answer of the lookup. *)
Lemma handleTabChange_found p id s tab :
  tabs_get p id = Ok tab ->
  handleTabChange new_URL p id s
  = if not_ready tab then
      if tabId_is (activeTabInfo s) id
      then stopTrackingCurrentDomain (storage_io p) (Date_now p) s
      else s
    else
      let newDomain := getDomain new_URL (tab ≫= url) in
      if strict_equal newDomain (domain (activeTabInfo s)) then s
      else
        let s' := stopTrackingCurrentDomain (storage_io p) (Date_now p) s in
        if JS.truthy_string newDomain
        then startTrackingNewDomain (Date_now_start p) id newDomain s'
        else s'.
Proof. intros H. unfold handleTabChange. now rewrite H. Qed.

Lemma handleTabChange_thrown p id s message :
  tabs_get p id = Throw message ->
  handleTabChange new_URL p id s
  = if JS.includes message "No tab with id" then
      if tabId_is (activeTabInfo s) id
      then stopTrackingCurrentDomain (storage_io p) (Date_now p) s
      else s
    else stopTrackingCurrentDomain (storage_io p) (Date_now p) s.
Proof. intros H. unfold handleTabChange. now rewrite H. Qed.

(** X4.  A call of [handleTabChange] made once an earlier call for the
    same tab has run to its end, and whose lookup of the tab is answered
    as the earlier one was, leaves the state the earlier call left,
    whatever the clock reads and the store does by then.  Nothing is said
    here of a call that starts while the earlier one still awaits the
    store. *)
Theorem handleTabChange_after_completed_call p p' id s :
  tabs_get p' id = tabs_get p id ->
  handleTabChange new_URL p' id (handleTabChange new_URL p id s)
  = handleTabChange new_URL p id s.
Proof.
  intros Hget.
  set (stopped := stopTrackingCurrentDomain (storage_io p) (Date_now p) s).
  assert (tracking stopped = false) as Hstopped by apply stop_not_tracking_after.
  assert (forall io now, stopTrackingCurrentDomain io now stopped = stopped) as Hagain
    by (intros; now apply stop_not_tracking).
  destruct (tabs_get p id) as [tab|message] eqn:E.
  - rewrite (handleTabChange_found p id s tab E). fold stopped. cbv zeta.
    destruct (not_ready tab) eqn:Hready.
    + destruct (tabId_is (activeTabInfo s) id) eqn:Hid;
        rewrite (handleTabChange_found p' id _ tab Hget), Hready.
      * destruct (tabId_is (activeTabInfo stopped) id); [apply Hagain | reflexivity].
      * now rewrite Hid.
    + destruct (strict_equal (getDomain new_URL (tab ≫= url)) (domain (activeTabInfo s)))
        eqn:Hsame.
      * rewrite (handleTabChange_found p' id _ tab Hget), Hready. cbv zeta.
        now rewrite Hsame.
      * destruct (JS.truthy_string (getDomain new_URL (tab ≫= url))) eqn:Htruthy;
          rewrite (handleTabChange_found p' id _ tab Hget), Hready; cbv zeta.
        -- unfold startTrackingNewDomain at 1. rewrite Htruthy. simpl.
           destruct (getDomain new_URL (tab ≫= url)) as [d|]; [|discriminate].
           simpl. now rewrite String.eqb_refl.
        -- destruct (strict_equal _ (domain (activeTabInfo stopped))); [reflexivity|].
           rewrite Htruthy. apply Hagain.
  - rewrite (handleTabChange_thrown p id s message E). fold stopped.
    destruct (JS.includes message "No tab with id") eqn:Hmsg.
    + destruct (tabId_is (activeTabInfo s) id) eqn:Hid;
        rewrite (handleTabChange_thrown p' id _ message Hget), Hmsg.
      * destruct (tabId_is (activeTabInfo stopped) id); [apply Hagain | reflexivity].
      * now rewrite Hid.
    + rewrite (handleTabChange_thrown p' id _ message Hget), Hmsg. apply Hagain.
Qed.

End EngineMore.

(** X1.  Along every run from a fresh install the record is either empty or
    holds a tab id, a non-empty domain and a start time: [domain] and
    [startTime] are present together, and so are [tabId] and [domain]. *)
Theorem record_fields_go_together
    (new_URL : string -> option URL.t) (calls : list (Platform * Call)) :
  let info := activeTabInfo (run new_URL calls initial) in
  well_formed info
  /\ (is_Some (domain info) <-> is_Some (startTime info))
  /\ (is_Some (tabId info) <-> is_Some (domain info))
  /\ domain info <> Some "".
Proof.
  intros info.
  assert (well_formed info) as H by (apply run_well_formed; now left).
  split; [assumption|].
  destruct H as [-> | (id & d & now & Hd & ->)]; simpl.
  - split; [|split]; [split | split | ]; try (intros [x Hx]; discriminate).
    discriminate.
  - split; [|split]; [split | split | ]; try (intros _; eexists; reflexivity).
    congruence.
Qed.

Lemma only_tracked_domain_gains_witness :
  storage (step URL.construct (browsing 1 "https://b.example/y" io_ok 6000)
             (reconcile 1)
             {| activeTabInfo := activeTabInfo (on_a_example 1000 7000);
                storage := {[ "a.example" := number 7000; "c.example" := number 40 ]} |})
    !! "c.example"
  = Some (number 40).
Proof.
  rewrite (only_tracked_domain_gains URL.construct); [reflexivity | | ]; discriminate.
Defined.

(** X3.  Once a call of [stopTrackingCurrentDomain] has run to its end no
    record is active, from whatever state it started, and a call made
    after that changes nothing, whatever the clock and the store do.
    Nothing is said here of a call that starts while the first one still
    awaits the store. *)
Theorem stopTracking_after_completed_call
    (io io' : StorageIO) (now now' : Z) (s : State) :
  tracking (stopTrackingCurrentDomain io now s) = false
  /\ stopTrackingCurrentDomain io' now' (stopTrackingCurrentDomain io now s)
     = stopTrackingCurrentDomain io now s.
Proof.
  split; [apply stop_not_tracking_after|].
  apply stop_not_tracking, stop_not_tracking_after.
Qed.

Lemma handleTabChange_after_completed_call_witness :
  handleTabChange URL.construct (browsing 1 "https://b.example/y" io_set_rejects 9000) 1
    (handleTabChange URL.construct (browsing 1 "https://b.example/y" io_ok 6000) 1
       (on_a_example 1000 7000))
  = handleTabChange URL.construct (browsing 1 "https://b.example/y" io_ok 6000) 1
      (on_a_example 1000 7000).
Proof.
  apply (handleTabChange_after_completed_call URL.construct
           (browsing 1 "https://b.example/y" io_ok 6000)
           (browsing 1 "https://b.example/y" io_set_rejects 9000)).
  reflexivity.
Defined.

(** X5.  A focused, complete tab on the domain already tracked leaves the
    whole state as it is, even when it is another tab: the record keeps the
    tab id and the start time it had.  Closing the tab the record names
    then stops the tracking, although the domain is still on screen. *)
Theorem same_domain_keeps_record
    (new_URL : string -> option URL.t) (p p' : Platform) (id : Z) (s : State) (t : Tab)
    (old : Z) :
  tabs_get p id = Ok (Some t) ->
  active t = true -> status t = "complete" -> JS.truthy_string (url t) = true ->
  getDomain new_URL (url t) = domain (activeTabInfo s) ->
  tabId (activeTabInfo s) = Some old ->
  handleTabChange new_URL p id s = s
  /\ run new_URL [(p, tab_activated id); (p', tab_removed old)] s
     = stopTrackingCurrentDomain (storage_io p') (Date_now p') s.
Proof.
  intros Hget Hact Hst Hurl Hdom Hold.
  assert (handleTabChange new_URL p id s = s) as E.
  { rewrite (handleTabChange_found new_URL p id s (Some t) Hget).
    unfold not_ready. rewrite Hact, Hurl, Hst. simpl. rewrite Hdom.
    destruct (domain (activeTabInfo s)) as [d|]; simpl; [|reflexivity].
    now rewrite String.eqb_refl. }
  split; [assumption|].
  simpl. unfold onActivated. rewrite E. unfold onRemoved, tabId_is.
  rewrite Hold. now rewrite Z.eqb_refl.
Qed.

Lemma same_domain_keeps_record_witness :
  handleTabChange URL.construct (browsing 2 "https://a.example/other" io_ok 6000) 2
    (on_a_example 1000 7000)
  = on_a_example 1000 7000.
Proof.
  apply (same_domain_keeps_record URL.construct
           (browsing 2 "https://a.example/other" io_ok 6000)
           (browsing 2 "https://a.example/other" io_ok 8000)
           2 (on_a_example 1000 7000) (focused_complete "https://a.example/other") 1);
    reflexivity.
Defined.

(** X6.  What happens to a tab other than the one the record names leaves
    the state as it is: a lookup that finds the tab not ready, a lookup
    rejected with "No tab with id", and the removal of the tab. *)
Theorem other_tabs_do_not_disturb
    (new_URL : string -> option URL.t) (p : Platform) (id : Z) (s : State) :
  tabId_is (activeTabInfo s) id = false ->
  (forall tab, tabs_get p id = Ok tab -> not_ready tab = true ->
     handleTabChange new_URL p id s = s)
  /\ (forall message,
        tabs_get p id = Throw message -> JS.includes message "No tab with id" = true ->
        handleTabChange new_URL p id s = s)
  /\ onRemoved p id s = s.
Proof.
  intros Hid. repeat split.
  - intros tab Hget Hready.
    rewrite (handleTabChange_found new_URL p id s tab Hget). now rewrite Hready, Hid.
  - intros message Hget Hmsg.
    rewrite (handleTabChange_thrown new_URL p id s message Hget). now rewrite Hmsg, Hid.
  - unfold onRemoved. now rewrite Hid.
Qed.

Lemma other_tabs_do_not_disturb_witness :
  handleTabChange URL.construct (browsing 1 "https://a.example/x" io_ok 6000) 2
    (on_a_example 1000 7000)
  = on_a_example 1000 7000.
Proof.
  destruct (other_tabs_do_not_disturb URL.construct
              (browsing 1 "https://a.example/x" io_ok 6000) 2 (on_a_example 1000 7000))
    as (_ & Hclosed & _); [reflexivity|].
  apply (Hclosed "No tab with id: 2."); reflexivity.
Defined.

(** With the store serving, the clock past the start time, a number (or
    nothing, under a name that is no member of [Object.prototype]) on
    record and safe integers all along, a stop adds the elapsed time to the
    entry of the tracked domain. *)
Lemma stop_adds io now s d start :
  domain (activeTabInfo s) = Some d -> d <> "" ->
  startTime (activeTabInfo s) = Some start -> start <> 0 ->
  io = io_ok -> start < now ->
  is_numeric (data_at (storage s) d) = true ->
  exact_flush (stored (storage s) d) start now ->
  stopTrackingCurrentDomain io now s
  = {| activeTabInfo := cleared;
       storage := <[d := number (stored (storage s) d + (now - start))]> (storage s) |}.
Proof.
  intros Hd Hne Hs Hs0 -> Hlt Hnum [Hdelta Htotal].
  rewrite (stop_tracking io_ok now s d start) by assumption.
  rewrite sub_exact by assumption.
  rewrite updateStoredTime_adds by (assumption || lia). reflexivity.
Qed.

Lemma data_at_insert_ne (store : gmap string Stored) k v k' :
  k <> k' -> data_at (<[k := v]> store) k' = data_at store k'.
Proof. intros H. unfold data_at. now rewrite lookup_insert_ne. Qed.

Lemma data_at_insert_number (store : gmap string Stored) k n :
  data_at (<[k := number n]> store) k = num n.
Proof. unfold data_at. now rewrite lookup_insert_eq. Qed.

(** X7.  When the tracked tab goes away, the elapsed time is recorded in
    full and the record emptied: on the removal of the tab, on a lookup
    that finds it not ready, on the browser losing focus and (for a tab id
    other than 0) on the removal of any window.  The store serves the
    calls, the clock is past the start time, the tracked domain has a
    number on record (or no entry and a name that is no member of
    [Object.prototype]), and the elapsed time and the new total are safe
    integers. *)
Theorem tracked_tab_gone_flushes
    (new_URL : string -> option URL.t) (p : Platform) (s : State) (id : Z)
    (d : string) (start : Z) :
  tabId (activeTabInfo s) = Some id ->
  domain (activeTabInfo s) = Some d -> d <> "" ->
  startTime (activeTabInfo s) = Some start -> start <> 0 ->
  storage_io p = io_ok -> start < Date_now p ->
  is_numeric (data_at (storage s) d) = true ->
  exact_flush (stored (storage s) d) start (Date_now p) ->
  let flushed :=
    {| activeTabInfo := cleared;
       storage :=
         <[d := number (stored (storage s) d + (Date_now p - start))]> (storage s) |} in
  onRemoved p id s = flushed
  /\ (forall tab, tabs_get p id = Ok tab -> not_ready tab = true ->
        handleTabChange new_URL p id s = flushed)
  /\ windows_onFocusChanged new_URL p WINDOW_ID_NONE s = flushed
  /\ (id <> 0 -> windows_onRemoved p s = flushed).
Proof.
  intros Hid Hd Hne Hs Hs0 Hio Hlt Hnum Hexact flushed.
  assert (stopTrackingCurrentDomain (storage_io p) (Date_now p) s = flushed) as E
    by now apply stop_adds.
  assert (tabId_is (activeTabInfo s) id = true) as Htab
    by (unfold tabId_is; rewrite Hid; apply Z.eqb_refl).
  split; [|split; [|split]].
  - unfold onRemoved. now rewrite Htab.
  - intros tab Hget Hready.
    rewrite (handleTabChange_found new_URL p id s tab Hget). now rewrite Hready, Htab.
  - unfold windows_onFocusChanged. now rewrite Z.eqb_refl.
  - intros Hid0. unfold windows_onRemoved. rewrite Hid. simpl.
    destruct (Z.eqb_spec id 0); [contradiction | assumption].
Qed.

Lemma tracked_tab_gone_flushes_witness :
  onRemoved (browsing 2 "https://b.example/y" io_ok 4000) 1 (on_a_example 1000 7000)
  = {| activeTabInfo := cleared;
       storage := <["a.example" := number 10000]> {[ "a.example" := number 7000 ]} |}.
Proof.
  destruct (tracked_tab_gone_flushes URL.construct
              (browsing 2 "https://b.example/y" io_ok 4000) (on_a_example 1000 7000)
              1 "a.example" 1000) as (Hremoved & _);
    [ reflexivity | reflexivity | discriminate | reflexivity | discriminate
    | reflexivity | simpl; lia | reflexivity
    | change (exact_flush 7000 1000 4000);
      unfold exact_flush, safe_integer, MAX_SAFE_INTEGER; lia | ].
  exact Hremoved.
Defined.



(** X9.  From a state without domain on record, a lookup that finds a
    focused, complete tab whose URL yields a domain starts the tracking of
    that tab and domain at the reading of the clock and writes nothing to
    the store; so does the start of the browser when the query names such a
    tab, while a rejected query leaves the state as it is. *)
Theorem reconcile_starts_tracking
    (new_URL : string -> option URL.t) (p : Platform) (s : State) (id : Z) (t : Tab)
    (d : string) :
  domain (activeTabInfo s) = None ->
  tabs_get p id = Ok (Some t) ->
  active t = true -> status t = "complete" ->
  getDomain new_URL (url t) = Some d -> d <> "" ->
  let started :=
    {| activeTabInfo :=
         {| tabId := Some id; domain := Some d; startTime := Some (Date_now_start p) |};
       storage := storage s |} in
  handleTabChange new_URL p id s = started
  /\ (tabs_query p = Ok (Some id) -> onStartup new_URL p s = started)
  /\ (forall message, tabs_query p = Throw message -> onStartup new_URL p s = s).
Proof.
  intros Hnone Hget Hact Hst Hdom Hne started.
  assert (JS.truthy_string (url t) = true) as Hurl.
  { destruct (getDomain_prefix new_URL _ _ Hdom) as (u & Hu & Hpre).
    rewrite Hu. destruct u; [|reflexivity]. destruct Hpre; discriminate. }
  assert (handleTabChange new_URL p id s = started) as E.
  { rewrite (handleTabChange_found new_URL p id s (Some t) Hget).
    unfold not_ready. rewrite Hact, Hurl, Hst. simpl. rewrite Hdom, Hnone. simpl.
    assert (JS.is_empty d = false) as Hempty by now destruct d.
    rewrite Hempty. simpl.
    rewrite stop_not_tracking by (unfold tracking; now rewrite Hnone).
    unfold startTrackingNewDomain. simpl. now rewrite Hempty. }
  split; [assumption|]. split.
  - intros Hq. unfold onStartup. now rewrite Hq.
  - intros message Hq. unfold onStartup. now rewrite Hq.
Qed.

Lemma reconcile_starts_tracking_witness :
  onStartup URL.construct (browsing 4 "https://www.b.example/" io_ok 250) initial
  = {| activeTabInfo :=
         {| tabId := Some 4; domain := Some "www.b.example"; startTime := Some 250 |};
       storage := ∅ |}.
Proof.
  destruct (reconcile_starts_tracking URL.construct
              (browsing 4 "https://www.b.example/" io_ok 250) initial 4
              (focused_complete "https://www.b.example/") "www.b.example")
    as (_ & Hstartup & _);
    [ reflexivity | reflexivity | reflexivity | reflexivity | reflexivity
    | discriminate | ].
  apply Hstartup. reflexivity.
Defined.

(** X10.  Flushes add up.  With the store serving the calls, a first flush
    for a domain that has no entry and names no member of
    [Object.prototype] creates the entry with the elapsed time; two flushes
    for a domain with a number (or, under such a name, nothing) on record
    amount to one flush of the sum, as long as the totals are safe
    integers; and flushes for two different domains can be made in either
    order, whatever is on record. *)
Theorem flushes_add_up (store : gmap string Stored) (k k' : string) (a b : Z) :
  k <> "" -> k' <> "" -> 0 < a -> 0 < b ->
  (store !! k = None -> Object_prototype k = None -> safe_integer a ->
     updateStoredTime io_ok (Some k) a store !! k = Some (number a))
  /\ (is_numeric (data_at store k) = true ->
      safe_integer (stored store k + a) -> safe_integer (stored store k + a + b) ->
      updateStoredTime io_ok (Some k) b (updateStoredTime io_ok (Some k) a store)
      = updateStoredTime io_ok (Some k) (a + b) store)
  /\ (k <> k' ->
        updateStoredTime io_ok (Some k) a (updateStoredTime io_ok (Some k') b store)
        = updateStoredTime io_ok (Some k') b (updateStoredTime io_ok (Some k) a store)).
Proof.
  intros Hk Hk' Ha Hb. split; [|split].
  - intros Hnone Hproto Hsafe.
    assert (is_numeric (data_at store k) = true) as Hnum
      by (unfold data_at; now rewrite Hnone, Hproto).
    assert (stored store k = 0) as Hzero by (unfold stored; now rewrite Hnone).
    rewrite updateStoredTime_adds; try assumption; rewrite Hzero; [|assumption].
    now rewrite lookup_insert_eq.
  - intros Hnum Hsafe Hsafe'.
    rewrite (updateStoredTime_adds k a) by assumption.
    rewrite (updateStoredTime_adds k b); try assumption.
    + rewrite stored_insert. case_decide; [|contradiction].
      rewrite insert_insert_eq.
      rewrite updateStoredTime_adds; try assumption; try lia.
      * f_equal. f_equal. lia.
      * now replace (stored store k + (a + b)) with (stored store k + a + b) by lia.
    + now rewrite data_at_insert_number.
    + rewrite stored_insert. now case_decide.
  - intros Hne. rewrite !updateStoredTime_writes by assumption.
    rewrite !data_at_insert_ne by congruence.
    apply insert_insert_ne. congruence.
Qed.

Lemma flushes_add_up_witness :
  updateStoredTime io_ok (Some "a.example") 30
    (updateStoredTime io_ok (Some "a.example") 12 ∅)
  = updateStoredTime io_ok (Some "a.example") 42 ∅.
Proof.
  destruct (flushes_add_up ∅ "a.example" "b.example" 12 30) as (_ & Hsum & _);
    [discriminate | discriminate | lia | lia | ].
  apply Hsum; [reflexivity | | ];
    change (stored ∅ "a.example") with 0;
    unfold safe_integer, MAX_SAFE_INTEGER; lia.
Defined.

(* ===================================================================== *)
(** * The popup *)
(* ===================================================================== *)

Section SortFacts.

Context {A : Type} (f : A -> Z).

(** The comparator of a descending sort by [f]. *)
Local Abbreviation desc := (fun a b : A => f b - f a).

Lemma sort_insert_perm x l : Permutation (sort_insert desc x l) (x :: l).
Proof.
  induction l as [|y l IH]; simpl; [reflexivity|].
  destruct (0 <? desc x y); [|reflexivity].
  rewrite IH. apply perm_swap.
Qed.

Lemma Array_sort_perm l : Permutation (Array_sort desc l) l.
Proof.
  induction l as [|x l IH]; simpl; [reflexivity|].
  rewrite sort_insert_perm. now rewrite IH.
Qed.

Lemma sort_insert_sorted x l :
  StronglySorted (fun a b => f b <= f a) l ->
  StronglySorted (fun a b => f b <= f a) (sort_insert desc x l).
Proof.
  induction 1 as [|y l Hsorted IH Hall]; simpl.
  - repeat constructor.
  - destruct (Z.ltb_spec 0 (f y - f x)).
    + constructor; [assumption|].
      rewrite Forall_forall in *. intros z Hz.
      rewrite sort_insert_perm in Hz. apply elem_of_cons in Hz as [-> | Hz];
        [lia | now apply Hall].
    + constructor; [now constructor|].
      constructor; [lia|].
      rewrite Forall_forall in *. intros z Hz. specialize (Hall z Hz). lia.
Qed.

Lemma Array_sort_sorted l : StronglySorted (fun a b => f b <= f a) (Array_sort desc l).
Proof.
  induction l as [|x l IH]; simpl; [constructor | now apply sort_insert_sorted].
Qed.

(** Stability: the elements of one value keep the order they had. *)
Lemma sort_insert_stable v x l :
  List.filter (fun a => f a =? v) (sort_insert desc x l)
  = List.filter (fun a => f a =? v) (x :: l).
Proof.
  induction l as [|y l IH]; [reflexivity|].
  cbn [sort_insert]. cbn beta.
  destruct (Z.ltb_spec 0 (f y - f x)); [|reflexivity].
  cbn [List.filter] in *. rewrite IH.
  destruct (Z.eqb_spec (f y) v), (Z.eqb_spec (f x) v); try reflexivity. lia.
Qed.

Lemma Array_sort_stable v l :
  List.filter (fun a => f a =? v) (Array_sort desc l) = List.filter (fun a => f a =? v) l.
Proof.
  induction l as [|x l IH]; [reflexivity|].
  cbn [Array_sort]. rewrite sort_insert_stable. cbn [List.filter]. now rewrite IH.
Qed.

End SortFacts.

Section PopupFacts.

Implicit Types (items : Items) (v : Popup) (store : gmap string Stored).

Lemma filter_nil_iff {A} (f : A -> bool) (l : list A) :
  List.filter f l = [] <-> forall x, In x l -> f x = false.
Proof.
  induction l as [|y l IH]; simpl.
  - split; [intros _ x [] | reflexivity].
  - destruct (f y) eqn:E.
    + split; [discriminate|]. intros H. specialize (H y (or_introl eq_refl)). congruence.
    + rewrite IH. split.
      * intros H x [<- | Hx]; auto.
      * intros H x Hx. apply H. now right.
Qed.

Lemma item_at_in_keys items key :
  In key (Object_keys items) <-> is_Some (item_at items key).
Proof.
  induction items as [|[k x] items IH]; simpl.
  - split; [intros [] | intros [y Hy]; discriminate].
  - destruct (String.eqb_spec k key) as [-> | Hne].
    + split; [intros _; eauto | intros _; now left].
    + rewrite <- IH. split; [intros [E | H]; [contradiction | assumption] | now right].
Qed.

(** The two outcomes of a read that succeeds. *)
Lemma displayData_ok items v :
  displayData (Ok items) v
  = {| dataDisplay :=
         if (length (domains_of items) =? 0)%nat then text "No tracking data yet."
         else rows_of (map (row_of items)
                         (Array_sort (by_time_desc items) (domains_of items)));
       status_text := "";
       clearButton_disabled := clearButton_disabled v |}.
Proof.
  unfold displayData, displayData_finish. simpl.
  now destruct (length (domains_of items) =? 0)%nat.
Qed.

Lemma length_zero_nil {A} (l : list A) : (length l =? 0)%nat = true <-> l = [].
Proof. destruct l; simpl; split; congruence. Qed.

(** Under [reads_store] the keys are those of the store, and the numbers
    are the numbers of the store. *)
Lemma reads_store_keys store items key :
  reads_store store items ->
  (In key (Object_keys items) <-> is_Some (store !! key))
  /\ number_of (item_at items key) = stored store key
  /\ (is_number (item_at items key) = true <-> exists n, store !! key = Some (number n)).
Proof.
  intros [_ Hat]. rewrite item_at_in_keys, Hat. unfold stored.
  destruct (store !! key) as [[n|s]|]; simpl.
  - repeat split; eauto.
  - repeat split; eauto; try discriminate. intros [n Hn]. discriminate.
  - repeat split; try discriminate; intros [x Hx]; discriminate.
Qed.

Lemma reads_store_domains store items d :
  reads_store store items ->
  In d (domains_of items) <-> exists n, store !! d = Some (number n).
Proof.
  intros H. unfold domains_of. rewrite filter_In.
  destruct (reads_store_keys store items d H) as (Hk & _ & Hn). rewrite Hn, Hk.
  split; [now intros [_ ?] | intros [n Hn']; split; [rewrite Hn' |]; eauto].
Qed.

End PopupFacts.

(** X11.  After a read that succeeds, the popup says "No tracking data
    yet." exactly when no stored value is a number: entries of another
    type are never listed, and a store holding only such entries shows as
    empty. *)
Theorem displayData_no_data (items : Items) (v : Popup) :
  dataDisplay (displayData (Ok items) v) = text "No tracking data yet."
  <-> forall key, In key (Object_keys items) -> is_number (item_at items key) = false.
Proof.
  rewrite displayData_ok. cbn [dataDisplay].
  rewrite <- (filter_nil_iff (fun key => is_number (item_at items key))).
  fold (domains_of items).
  destruct (length (domains_of items) =? 0)%nat eqn:E.
  - apply length_zero_nil in E. now split.
  - split; [discriminate|]. intros H. apply length_zero_nil in H. congruence.
Qed.

Lemma displayData_no_data_witness :
  dataDisplay (displayData (Ok [("settings", item_other); ("theme", item_other)]) opened)
  = text "No tracking data yet.".
Proof.
  apply (displayData_no_data [("settings", item_other); ("theme", item_other)] opened).
  intros key [<- | [<- | []]]; reflexivity.
Defined.

(** X12.  After a read that succeeds and finds a number, the popup lists
    one row per key whose value is a number and no other row; the rows come
    in descending order of the time, rows of equal time in the order
    [Object.keys] gave them; each row shows the key, as text and as title,
    and [formatTime] of its value. *)
Theorem displayData_rows_sorted (items : Items) (v : Popup) :
  domains_of items <> [] ->
  exists shown,
    displayData (Ok items) v
    = {| dataDisplay := rows_of (map (row_of items) shown);
         status_text := "";
         clearButton_disabled := clearButton_disabled v |}
    /\ Permutation shown (domains_of items)
    /\ descending items shown
    /\ (forall n,
          List.filter (fun key => number_of (item_at items key) =? n) shown
          = List.filter (fun key => number_of (item_at items key) =? n) (domains_of items)).
Proof.
  intros Hne. exists (Array_sort (by_time_desc items) (domains_of items)).
  rewrite displayData_ok.
  destruct (length (domains_of items) =? 0)%nat eqn:E;
    [apply length_zero_nil in E; contradiction|].
  split; [reflexivity|]. split; [|split].
  - apply (Array_sort_perm (fun key => number_of (item_at items key))).
  - apply (Array_sort_sorted (fun key => number_of (item_at items key))).
  - intros n. apply (Array_sort_stable (fun key => number_of (item_at items key))).
Qed.

Lemma displayData_rows_sorted_witness :
  let items := [("b.example", item_number 1200); ("settings", item_other);
                ("a.example", item_number 61000); ("c.example", item_number 1200)] in
  exists shown,
    displayData (Ok items) opened
    = {| dataDisplay := rows_of (map (row_of items) shown);
         status_text := "";
         clearButton_disabled := false |}
    /\ Permutation shown ["b.example"; "a.example"; "c.example"]
    /\ descending items shown
    /\ (forall n,
          List.filter (fun key => number_of (item_at items key) =? n) shown
          = List.filter (fun key => number_of (item_at items key) =? n)
              ["b.example"; "a.example"; "c.example"]).
Proof.
  intros items. apply (displayData_rows_sorted items opened). discriminate.
Defined.

(** The run of that example: the longest time first, the two equal times
    in the order of the keys. *)
Example displayData_three_rows :
  dataDisplay
    (displayData
       (Ok [("b.example", item_number 1200); ("settings", item_other);
            ("a.example", item_number 61000); ("c.example", item_number 1200)])
       opened)
  = rows_of
      [ {| domain_text := "a.example"; domain_title := "a.example"; time_text := "1m 1s" |};
        {| domain_text := "b.example"; domain_title := "b.example"; time_text := "1s" |};
        {| domain_text := "c.example"; domain_title := "c.example"; time_text := "1s" |} ].
Proof. vm_compute. reflexivity. Qed.

Lemma StronglySorted_weaken {A} (R R' : A -> A -> Prop) (l : list A) :
  (forall a b, R a b -> R' a b) -> StronglySorted R l -> StronglySorted R' l.
Proof.
  intros HR. induction 1 as [|x l Hs IH Hall]; constructor; [assumption|].
  eapply Forall_impl; [exact Hall | auto].
Qed.

(** X13.  The popup shows the numbers the engine has on record.  When the
    read returns the engine's store, a store without a number shows as
    "No tracking data yet."; otherwise there is exactly one row per domain
    whose entry is a number, showing [formatTime] of its total, the largest
    total first.  An entry that is a string, as a flush leaves it under the
    name of a member of [Object.prototype], has no row. *)
Theorem popup_lists_the_store (store : gmap string Stored) (items : Items) (v : Popup) :
  reads_store store items ->
  ((forall d n, store !! d <> Some (number n)) ->
     dataDisplay (displayData (Ok items) v) = text "No tracking data yet.")
  /\ ((exists d n, store !! d = Some (number n)) ->
        exists shown,
          dataDisplay (displayData (Ok items) v)
          = rows_of
              (map (fun d => {| domain_text := d; domain_title := d;
                                time_text := formatTime (stored store d) |}) shown)
          /\ NoDup shown
          /\ (forall d, In d shown <-> exists n, store !! d = Some (number n))
          /\ StronglySorted (fun a b => stored store b <= stored store a) shown).
Proof.
  intros Hreads.
  rewrite displayData_ok. cbn [dataDisplay]. split.
  - intros Hnone.
    destruct (domains_of items) as [|k l] eqn:E; [reflexivity|].
    assert (In k (domains_of items)) as Hin by (rewrite E; now left).
    apply (reads_store_domains store items k Hreads) in Hin as [n Hn].
    destruct (Hnone k n Hn).
  - intros (d & n & Hdn).
    destruct (length (domains_of items) =? 0)%nat eqn:E.
    + apply length_zero_nil in E.
      assert (In d (domains_of items)) as Hin
        by (apply (reads_store_domains store items d Hreads); eauto).
      rewrite E in Hin. destruct Hin.
    + set (shown := Array_sort (by_time_desc items) (domains_of items)).
      assert (Permutation shown (domains_of items)) as Hperm
        by apply (Array_sort_perm (fun key => number_of (item_at items key))).
      exists shown. split; [|split; [|split]].
      * f_equal. apply map_ext. intros k. unfold row_of.
        now destruct (reads_store_keys store items k Hreads) as (_ & -> & _).
      * rewrite Hperm. unfold domains_of.
        apply NoDup_ListNoDup, List.NoDup_filter, NoDup_ListNoDup, Hreads.
      * intros k. rewrite <- (reads_store_domains store items k Hreads).
        split; apply Permutation_in; [assumption | now symmetry].
      * apply (StronglySorted_weaken
                 (fun a b => number_of (item_at items b) <= number_of (item_at items a))).
        -- intros a b.
           destruct (reads_store_keys store items a Hreads) as (_ & -> & _).
           now destruct (reads_store_keys store items b Hreads) as (_ & -> & _).
        -- apply (Array_sort_sorted (fun key => number_of (item_at items key))).
Qed.

Lemma popup_lists_the_store_witness :
  let store : gmap string Stored :=
    {[ "a.example" := number 5000;
       "constructor" := characters "function Object() { [native code] }5000" ]} in
  exists shown,
    dataDisplay
      (displayData (Ok [("a.example", item_number 5000); ("constructor", item_other)])
         opened)
    = rows_of
        (map (fun d => {| domain_text := d; domain_title := d;
                          time_text := formatTime (stored store d) |})
           shown)
    /\ NoDup shown
    /\ (forall d, In d shown <-> exists n, store !! d = Some (number n))
    /\ StronglySorted (fun a b => stored store b <= stored store a) shown.
Proof.
  intros store.
  destruct (popup_lists_the_store store
              [("a.example", item_number 5000); ("constructor", item_other)] opened)
    as (_ & Hrows).
  - split.
    + change (NoDup ["a.example"; "constructor"]).
      apply NoDup_cons_2; [|apply NoDup_singleton].
      intros Hin. apply list_elem_of_singleton in Hin. discriminate.
    + intros key. cbn [item_at]. subst store.
      destruct (String.eqb_spec "a.example" key) as [<- | Hne]; [reflexivity|].
      rewrite lookup_insert_ne by assumption.
      destruct (String.eqb_spec "constructor" key) as [<- | Hne'].
      * rewrite lookup_singleton_eq. reflexivity.
      * rewrite lookup_singleton_ne by assumption. reflexivity.
  - apply Hrows. exists "a.example", 5000. reflexivity.
Defined.

Lemma reads_empty_store items : reads_store ∅ items -> items = [].
Proof.
  intros Hreads. destruct items as [|[k x] items]; [reflexivity|].
  destruct (reads_store_keys ∅ ((k, x) :: items) k Hreads) as (Hk & _).
  destruct (proj1 Hk (or_introl eq_refl)) as [y Hy]. now rewrite lookup_empty in Hy.
Qed.

(** X14.  The callback that enables the button again and the end of a
    refresh can come in either order: whatever the read settles to, the
    popup ends the same.  (Both are set off 1500 ms after a clear; the
    refresh starts first and awaits the read.) *)
Theorem reenable_commutes_with_refresh (get_all : Result Items) (v : Popup) :
  reenable_button (displayData_finish get_all (displayData_start v))
  = displayData_finish get_all (reenable_button (displayData_start v)).
Proof.
  destruct get_all as [items|message]; unfold displayData_finish; simpl.
  - now destruct (length (domains_of items) =? 0)%nat.
  - reflexivity.
Qed.

(** X15.  A clear that succeeds empties the store, disables the button
    and schedules a refresh; when the refresh reads the emptied store, the
    popup ends with "No tracking data yet.", no status and the button
    enabled, in whichever order refresh and button callback finish. *)
Theorem clear_then_refresh (store : gmap string Stored) (v : Popup) :
  let '(store', cleared_view, refresh) := clearData (Ok ()) store v in
  store' = ∅
  /\ refresh = true
  /\ clearButton_disabled cleared_view = true
  /\ forall items,
       reads_store store' items ->
       let done :=
         {| dataDisplay := text "No tracking data yet.";
            status_text := "";
            clearButton_disabled := false |} in
       reenable_button (displayData (Ok items) cleared_view) = done
       /\ displayData_finish (Ok items) (reenable_button (displayData_start cleared_view))
          = done.
Proof.
  simpl. repeat split; intros; apply reads_empty_store in H; subst items; reflexivity.
Qed.

Lemma clear_then_refresh_witness :
  let '(store', cleared_view, refresh) :=
    clearData (Ok ()) {[ "a.example" := number 5000; "b.example" := number 1200 ]} opened in
  store' = ∅
  /\ reenable_button (displayData (Ok []) cleared_view)
     = {| dataDisplay := text "No tracking data yet.";
          status_text := "";
          clearButton_disabled := false |}.
Proof.
  pose proof (clear_then_refresh
                {[ "a.example" := number 5000; "b.example" := number 1200 ]} opened)
    as H.
  simpl in *. destruct H as (Hstore & _ & _ & Hdone).
  split; [exact Hstore|].
  apply (Hdone []). split; [constructor | intros key; now rewrite lookup_empty].
Defined.

(** X16.  A failure is not fatal and its message stays.  When the clear
    is rejected the store keeps its content, no refresh is scheduled, and
    after the button callback the popup shows "Error clearing data." with
    the status "Error: <message>" and the button enabled; when a read is
    rejected the same holds with "Error loading data.".  The callback
    wipes the status only when it does not contain "Error". *)
Theorem failure_message_stays (store : gmap string Stored) (v : Popup)
    (message : string) :
  (let '(store', failed_view, refresh) := clearData (Throw message) store v in
   store' = store
   /\ refresh = false
   /\ reenable_button failed_view
      = {| dataDisplay := text "Error clearing data.";
           status_text := "Error: " +:+ message;
           clearButton_disabled := false |})
  /\ reenable_button (displayData (Throw message) v)
     = {| dataDisplay := text "Error loading data.";
          status_text := "Error: " +:+ message;
          clearButton_disabled := false |}
  /\ status_text (reenable_button (snd (fst (clearData (Ok ()) store v)))) = "".
Proof.
  lazy beta iota zeta delta [clearData catch mbind Result_bind].
  repeat split; reflexivity.
Qed.

(** X17.  A clear does not touch the record of the engine: the domain
    tracked across the clear comes back, at the next stop, with the whole
    time since tracking started, the time before the clear included, and
    as the only entry.  The domain names no member of [Object.prototype]
    and the elapsed time is a safe integer. *)
Theorem clear_keeps_tracking
    (s : State) (v : Popup) (d : string) (start now : Z) :
  domain (activeTabInfo s) = Some d -> d <> "" ->
  startTime (activeTabInfo s) = Some start -> start <> 0 ->
  start < now ->
  Object_prototype d = None -> safe_integer (now - start) ->
  stopTrackingCurrentDomain io_ok now
    {| activeTabInfo := activeTabInfo s;
       storage := fst (fst (clearData (Ok ()) (storage s) v)) |}
  = {| activeTabInfo := cleared; storage := {[ d := number (now - start) ]} |}.
Proof.
  intros Hd Hne Hs Hs0 Hlt Hproto Hsafe.
  assert (fst (fst (clearData (Ok ()) (storage s) v)) = ∅) as -> by reflexivity.
  assert (stored ∅ d = 0) as Hzero by (unfold stored; now rewrite lookup_empty).
  rewrite (stop_adds io_ok now {| activeTabInfo := activeTabInfo s; storage := ∅ |}
             d start Hd Hne Hs Hs0 eq_refl Hlt);
    cbn [storage activeTabInfo].
  - rewrite Hzero, Z.add_0_l. now rewrite insert_empty.
  - unfold data_at. now rewrite lookup_empty, Hproto.
  - rewrite Hzero. now split.
Qed.

Lemma clear_keeps_tracking_witness :
  stopTrackingCurrentDomain io_ok 9000
    {| activeTabInfo := activeTabInfo (on_a_example 1000 7000);
       storage := fst (fst (clearData (Ok ()) (storage (on_a_example 1000 7000)) opened)) |}
  = {| activeTabInfo := cleared; storage := {[ "a.example" := number (9000 - 1000) ]} |}.
Proof.
  apply (clear_keeps_tracking (on_a_example 1000 7000) opened "a.example" 1000 9000);
    [ reflexivity | discriminate | reflexivity | discriminate | lia | reflexivity
    | unfold safe_integer, MAX_SAFE_INTEGER; lia ].
Defined.

(* ===================================================================== *)
(** * The formatter keeps the whole seconds *)
(* ===================================================================== *)

Section ReadBack.













End ReadBack.



(* ===================================================================== *)
(** * What the engine puts on record *)
(* ===================================================================== *)

Section OnRecord.

Variable new_URL : string -> option URL.t.

Implicit Types (s : State) (p : Platform).

Lemma getDomain_web url d :
  getDomain new_URL url = Some d -> d <> "" -> web_domain new_URL d.
Proof.
  intros Hdom Hne. split; [assumption|].
  destruct (getDomain_prefix new_URL url d Hdom) as (u & -> & Hpre).
  destruct (new_URL u) as [parsed|] eqn:Hparse.
  - exists u, parsed. repeat split; try assumption.
    rewrite (getDomain_accepts new_URL u parsed Hpre Hparse) in Hdom. congruence.
  - rewrite (getDomain_throwing new_URL u Hparse) in Hdom. discriminate.
Qed.

Lemma updateStoredTime_web io d ms store :
  (forall k, d = Some k -> web_domain new_URL k) ->
  (forall k, is_Some (store !! k) -> web_domain new_URL k) ->
  forall k, is_Some (updateStoredTime io d ms store !! k) -> web_domain new_URL k.
Proof.
  intros Hd Hstore k.
  destruct (updateStoredTime_cases io d ms store) as [-> | (k' & -> & _ & ->)];
    [apply Hstore|].
  rewrite lookup_insert. case_decide; [subst; intros _; now apply Hd | apply Hstore].
Qed.

Lemma stop_web io now s :
  web_only new_URL s -> web_only new_URL (stopTrackingCurrentDomain io now s).
Proof.
  intros [Hrec Hstore].
  destruct (tracking s) eqn:E; [|now rewrite stop_not_tracking].
  destruct (tracking_inv s E) as (d & start & Hd & Hne & Hs & Hs0).
  rewrite (stop_tracking io now s d start) by assumption. split; simpl.
  - discriminate.
  - apply (updateStoredTime_web io (Some d) (JS.sub now start)); [|assumption].
    intros k [= <-]. now apply Hrec.
Qed.

Lemma handleTabChange_web p id s :
  web_only new_URL s -> web_only new_URL (handleTabChange new_URL p id s).
Proof.
  intros Hs.
  pose proof (stop_web (storage_io p) (Date_now p) s Hs) as Hstopped.
  destruct (tabs_get p id) as [tab|message] eqn:E.
  - rewrite (handleTabChange_found new_URL p id s tab E). cbv zeta.
    destruct (not_ready tab); [now destruct (tabId_is _ _)|].
    destruct (strict_equal _ _); [assumption|].
    destruct (JS.truthy_string (getDomain new_URL (tab ≫= url))) eqn:Htruthy;
      [|assumption].
    unfold startTrackingNewDomain. rewrite Htruthy. simpl.
    split; simpl; [|apply Hstopped].
    intros d Hd. apply (getDomain_web _ d Hd). intros ->.
    rewrite Hd in Htruthy. discriminate.
  - rewrite (handleTabChange_thrown new_URL p id s message E).
    destruct (JS.includes _ _); [now destruct (tabId_is _ _) | assumption].
Qed.

Lemma step_web p c s :
  brings_no_domain c = true -> web_only new_URL s -> web_only new_URL (step new_URL p c s).
Proof.
  intros Hc Hs. destruct c; try discriminate; simpl.
  - now apply stop_web.
  - now apply handleTabChange_web.
  - now apply handleTabChange_web.
  - unfold onUpdated.
    repeat (destruct (_ && _)); try assumption; now apply handleTabChange_web.
  - unfold onRemoved. destruct (tabId_is _ _); [now apply stop_web | assumption].
  - unfold windows_onRemoved. destruct (JS.truthy_number _);
      [now apply stop_web | assumption].
  - unfold windows_onFocusChanged. destruct (_ =? _); [now apply stop_web|].
    destruct (tabs_query p) as [[id|]|]; simpl;
      try assumption; now apply handleTabChange_web.
  - unfold onStartup. destruct (tabs_query p) as [[id|]|];
      try assumption; now apply handleTabChange_web.
  - unfold onInstalled. destruct (tabs_query p) as [[id|]|];
      try assumption; now apply handleTabChange_web.
Qed.

Lemma run_web calls s :
  Forall (fun pc => brings_no_domain (snd pc) = true) calls ->
  web_only new_URL s -> web_only new_URL (run new_URL calls s).
Proof.
  intros Hcalls. revert s.
  induction Hcalls as [|[p c] rest Hc Hrest IH]; intros s Hs; simpl; [assumption|].
  now apply IH, step_web.
Qed.

Lemma updateStoredTime_positive io d ms store :
  positive_entries store -> positive_entries (updateStoredTime io d ms store).
Proof.
  intros Hpos.
  destruct (updateStoredTime_cases io d ms store) as [-> | (k & _ & Hms & ->)];
    [assumption|].
  intros k' v'. rewrite lookup_insert. case_decide as Hk; [|apply Hpos].
  subst k'. intros [= <-]. unfold data_at.
  destruct (store !! k) as [[n|text]|] eqn:E; simpl.
  - specialize (Hpos k _ E). simpl in Hpos.
    destruct (Z.eqb_spec n 0); simpl; apply to_double_sign; lia.
  - specialize (Hpos k _ E). simpl in Hpos.
    destruct (negb (JS.is_empty text)); simpl; [assumption | apply to_double_sign; lia].
  - destruct (Object_prototype k) as [member|]; simpl;
      [eauto | apply to_double_sign; lia].
Qed.

Lemma run_positive calls s :
  positive_entries (storage s) -> positive_entries (storage (run new_URL calls s)).
Proof.
  revert s; induction calls as [|[p c] rest IH]; intros s H; simpl; [assumption|].
  apply IH. destruct (step_store_step new_URL p c s) as (io & d & ms & ->).
  now apply updateStoredTime_positive.
Qed.

End OnRecord.

(** X19.  The engine tracks web pages only.  Along every run from a fresh
    install in which no call brings a domain of its own, the domain of the
    record and every key of the store is the non-empty hostname of a URL
    that opens with [http:] or [https:] and that the URL constructor
    accepted: no time is recorded for any other page. *)
Theorem only_web_domains_on_record
    (new_URL : string -> option URL.t) (calls : list (Platform * Call)) :
  Forall (fun pc => brings_no_domain (snd pc) = true) calls ->
  let s := run new_URL calls initial in
  (forall d, domain (activeTabInfo s) = Some d -> web_domain new_URL d)
  /\ (forall k, is_Some (storage s !! k) -> web_domain new_URL k).
Proof.
  intros Hcalls. apply (run_web new_URL calls initial Hcalls). split; simpl.
  - discriminate.
  - intros k [x Hx]. now rewrite lookup_empty in Hx.
Qed.

Lemma only_web_domains_on_record_witness :
  web_domain URL.construct "a.example".
Proof.
  destruct (only_web_domains_on_record URL.construct
              [(browsing 1 "https://a.example/x" io_ok 10, tab_activated 1);
               (browsing 1 "chrome://extensions/" io_ok 5010,
                tab_updated 1 (Some "complete") None true)])
    as (_ & Hkeys).
  - repeat constructor.
  - apply Hkeys. vm_compute. eexists. reflexivity.
Defined.

(** X20.  From a fresh install every number on record is positive, a
    string is on record only under a name of a member of
    [Object.prototype], and so every entry under another name is a positive
    number: a domain gets its entry with its first flush of a positive
    elapsed time, and no entry is ever zero. *)
Theorem entries_are_positive
    (new_URL : string -> option URL.t) (calls : list (Platform * Call)) :
  positive_entries (storage (run new_URL calls initial))
  /\ forall k, is_Some (storage (run new_URL calls initial) !! k) ->
               Object_prototype k = None ->
               exists n, storage (run new_URL calls initial) !! k = Some (number n)
                         /\ 0 < n.
Proof.
  assert (positive_entries (storage (run new_URL calls initial))) as H.
  { apply run_positive. intros k v Hv. simpl in Hv. now rewrite lookup_empty in Hv. }
  split; [assumption|]. intros k [v Hv] Hproto. specialize (H k v Hv).
  destruct v as [n|text]; [eauto|]. rewrite Hproto in H. destruct H as [x Hx]. discriminate.
Qed.

Lemma entries_are_positive_witness :
  exists n,
    storage
      (run URL.construct
         [(browsing 1 "https://a.example/x" io_ok 10, tab_activated 1);
          (browsing 1 "https://a.example/x" io_ok 10, tab_removed 1);
          (browsing 1 "https://a.example/x" io_ok 20, tab_activated 1);
          (browsing 1 "https://a.example/x" io_ok 50, tab_removed 1)]
         initial) !! "a.example" = Some (number n)
    /\ 0 < n.
Proof.
  destruct (entries_are_positive URL.construct
              [(browsing 1 "https://a.example/x" io_ok 10, tab_activated 1);
               (browsing 1 "https://a.example/x" io_ok 10, tab_removed 1);
               (browsing 1 "https://a.example/x" io_ok 20, tab_activated 1);
               (browsing 1 "https://a.example/x" io_ok 50, tab_removed 1)])
    as (_ & Hpos).
  apply Hpos; [vm_compute; eexists; reflexivity | reflexivity].
Defined.

(* ===================================================================== *)
(** * stopTrackingCurrentDomain between its awaits *)
(* ===================================================================== *)

Section Awaits.

Implicit Types (s : State) (io : StorageIO) (phase : StopPhase).

(** The start of a call on an active record. *)
Lemma stop_resume_called io now s d start :
  domain (activeTabInfo s) = Some d -> d <> "" ->
  startTime (activeTabInfo s) = Some start -> start <> 0 ->
  stop_resume io now stop_called s
  = if JS.sub now start <=? 0 then (awaits_updateStoredTime, s)
    else (awaits_get d (JS.sub now start), s).
Proof.
  intros Hd Hne Hs Hs0. unfold stop_resume. rewrite Hd, Hs.
  assert (JS.truthy_string (Some d) = true) as -> by now destruct d.
  assert (JS.truthy_number (Some start) = true) as ->.
  { simpl. now destruct (Z.eqb_spec start 0). }
  reflexivity.
Qed.

(** The start of a call without active record: it returns at once. *)
Lemma stop_resume_idle io now s :
  tracking s = false -> stop_resume io now stop_called s = (stop_returned, s).
Proof.
  unfold tracking, stop_resume. intros H.
  destruct (domain (activeTabInfo s)) as [d|]; [|reflexivity].
  destruct (startTime (activeTabInfo s)) as [start|]; [|reflexivity].
  now rewrite H.
Qed.

(** The read and the write of a flush on a store that serves them, for a
    domain with a number, or with nothing that a name of [Object.prototype]
    would find, on record. *)
Lemma stop_resume_get now s d ms :
  is_numeric (data_at (storage s) d) = true -> safe_integer (stored (storage s) d + ms) ->
  stop_resume io_ok now (awaits_get d ms) s
  = (awaits_set d (number (stored (storage s) d + ms)), s).
Proof.
  intros Hnum Hsafe. cbn [stop_resume storage_get].
  rewrite or_zero_numeric by assumption. unfold plus, JS.add.
  now rewrite to_double_safe.
Qed.

Lemma stop_resume_set now s d v :
  stop_resume io_ok now (awaits_set d v) s
  = (awaits_updateStoredTime,
     {| activeTabInfo := activeTabInfo s; storage := <[d := v]> (storage s) |}).
Proof. reflexivity. Qed.

Lemma stop_resume_reset io now s :
  stop_resume io now awaits_updateStoredTime s
  = (stop_returned, {| activeTabInfo := cleared; storage := storage s |}).
Proof. reflexivity. Qed.

End Awaits.

(** X21.  A call of [stopTrackingCurrentDomain] that is resumed through
    its awaits with no other code running in between returns within four
    turns and leaves the state that the call taken as one step leaves,
    whatever the clock reads and the store does. *)
Theorem stop_alone_is_one_step (io : StorageIO) (now : Z) (s : State) :
  stop_alone 4 io now stop_called s
  = (stop_returned, stopTrackingCurrentDomain io now s).
Proof.
  destruct (tracking s) eqn:E.
  - destruct (tracking_inv s E) as (d & start & Hd & Hne & Hs & Hs0).
    rewrite (stop_tracking io now s d start) by assumption.
    cbn [stop_alone]. rewrite (stop_resume_called io now s d start) by assumption.
    unfold updateStoredTime.
    assert (JS.truthy_string (Some d) = true) as -> by now destruct d.
    cbn [negb orb].
    destruct (JS.sub now start <=? 0); [reflexivity|].
    destruct io; reflexivity.
  - rewrite stop_not_tracking by assumption.
    cbn [stop_alone]. now rewrite stop_resume_idle.
Qed.

(** X22.  Two calls of [stopTrackingCurrentDomain] in flight at once.  A
    record is active, the store serves every call, both clock readings are
    past the start time, the tracked domain has a number on record (or no
    entry and a name that is no member of [Object.prototype]) and the
    totals are safe integers.  When the second call starts while the first
    awaits the read, both pass the guard and both flush: if the first is
    through with the store before the read of the second is served, the
    entry grows by both elapsed times, the time since the start being
    counted twice; if both reads are served before either write, the write
    of the second replaces that of the first.  When the second call starts
    after the first has returned, the entry grows by the elapsed time of
    the first alone.  The record is empty at the end in all three. *)
Theorem overlapping_stops_flush_twice (s : State) (d : string) (start now1 now2 : Z) :
  domain (activeTabInfo s) = Some d -> d <> "" ->
  startTime (activeTabInfo s) = Some start -> start <> 0 ->
  start < now1 -> start < now2 ->
  is_numeric (data_at (storage s) d) = true ->
  0 <= stored (storage s) d ->
  safe_integer (stored (storage s) d + (now1 - start) + (now2 - start)) ->
  let total := stored (storage s) d in
  let ended_with entry :=
    (stop_returned, stop_returned,
     {| activeTabInfo := cleared; storage := <[d := number entry]> (storage s) |}) in
  stop_overlapped io_ok now1 io_ok now2
    [first_call; second_call; first_call; first_call; first_call;
     second_call; second_call; second_call]
    stop_called stop_called s
  = ended_with (total + (now1 - start) + (now2 - start))
  /\ stop_overlapped io_ok now1 io_ok now2
       [first_call; second_call; first_call; second_call;
        first_call; second_call; first_call; second_call]
       stop_called stop_called s
     = ended_with (total + (now2 - start))
  /\ stop_overlapped io_ok now1 io_ok now2
       [first_call; first_call; first_call; first_call;
        second_call; second_call; second_call; second_call]
       stop_called stop_called s
     = ended_with (total + (now1 - start)).
Proof.
  intros Hd Hne Hs Hs0 Hlt1 Hlt2 Hnum Hpos Hsafe total ended_with.
  unfold safe_integer, MAX_SAFE_INTEGER in Hsafe.
  assert (JS.sub now1 start = now1 - start) as Hsub1
    by (apply sub_exact; unfold safe_integer, MAX_SAFE_INTEGER; lia).
  assert (JS.sub now2 start = now2 - start) as Hsub2
    by (apply sub_exact; unfold safe_integer, MAX_SAFE_INTEGER; lia).
  assert (forall now, stop_resume io_ok now stop_called s
                      = if JS.sub now start <=? 0 then (awaits_updateStoredTime, s)
                        else (awaits_get d (JS.sub now start), s)) as Hcalled
    by (intros now; now apply stop_resume_called).
  assert (stop_resume io_ok now1 stop_called s = (awaits_get d (now1 - start), s)) as H1.
  { rewrite Hcalled, Hsub1. destruct (Z.leb_spec (now1 - start) 0); [lia | reflexivity]. }
  assert (stop_resume io_ok now2 stop_called s = (awaits_get d (now2 - start), s)) as H2.
  { rewrite Hcalled, Hsub2. destruct (Z.leb_spec (now2 - start) 0); [lia | reflexivity]. }
  assert (forall now ms, 0 <= ms <= now2 - start \/ 0 <= ms <= now1 - start ->
            stop_resume io_ok now (awaits_get d ms) s
            = (awaits_set d (number (total + ms)), s)) as Hget.
  { intros now ms Hms. apply stop_resume_get; [assumption|].
    fold total. unfold safe_integer, MAX_SAFE_INTEGER. lia. }
  subst ended_with. cbv beta. split; [|split]; cbn [stop_overlapped].
  - rewrite H1, H2, Hget by lia. lazy beta iota zeta.
    rewrite stop_resume_set, stop_resume_reset. lazy beta iota zeta.
    cbn [storage activeTabInfo].
    rewrite stop_resume_get.
    + rewrite stop_resume_set, stop_resume_reset. cbn [storage activeTabInfo].
      rewrite stored_insert. case_decide; [|contradiction].
      now rewrite insert_insert_eq.
    + cbn [storage]. now rewrite data_at_insert_number.
    + cbn [storage]. rewrite stored_insert. case_decide; [|contradiction].
      fold total. unfold safe_integer, MAX_SAFE_INTEGER. lia.
  - rewrite H1, H2, Hget by lia. lazy beta iota zeta. rewrite Hget by lia.
    rewrite !stop_resume_set, !stop_resume_reset. cbn [storage activeTabInfo].
    now rewrite insert_insert_eq.
  - rewrite H1, Hget by lia. lazy beta iota zeta.
    rewrite stop_resume_set, stop_resume_reset. lazy beta iota zeta.
    now rewrite stop_resume_idle.
Qed.

Lemma overlapping_stops_flush_twice_witness :
  stop_overlapped io_ok 6000 io_ok 6000
    [first_call; second_call; first_call; first_call; first_call;
     second_call; second_call; second_call]
    stop_called stop_called (on_a_example 1000 7000)
  = (stop_returned, stop_returned,
     {| activeTabInfo := cleared;
        storage := <["a.example" := number 17000]> {[ "a.example" := number 7000 ]} |}).
Proof.
  destruct (overlapping_stops_flush_twice (on_a_example 1000 7000) "a.example"
              1000 6000 6000) as (Htwice & _);
    [ reflexivity | discriminate | reflexivity | discriminate | lia | lia
    | reflexivity
    | change (0 <= 7000); lia
    | change (safe_integer (7000 + (6000 - 1000) + (6000 - 1000)));
      unfold safe_integer, MAX_SAFE_INTEGER; lia | ].
  exact Htwice.
Defined.

(* ===================================================================== *)
(** * Totals under rounding *)
(* ===================================================================== *)

Section Rounding.

(** An integer up to 2^53 in magnitude is a double. *)
Lemma to_double_small x : Z.abs x <= 2 ^ 53 -> JS.to_double x = x.
Proof.
  intros H. unfold JS.to_double. destruct (Z.leb_spec (Z.abs x) (2 ^ 53)); [reflexivity | lia].
Qed.

(** The pieces of [JS.to_double] beyond 2^53: with [e] the position of the
    leading bit, the mantissa has 53 bits and the result lies between 2^e
    and 2^(e+1). *)
Lemma to_double_large x :
  2 ^ 53 < x ->
  let e := Z.log2 x in
  let q := 2 ^ (e - 52) in
  exists rounded,
    JS.to_double x = rounded * q
    /\ 53 <= e /\ 0 < q /\ 2 ^ e = 2 ^ 52 * q /\ 2 ^ (e + 1) = 2 ^ 53 * q
    /\ 2 ^ 52 <= x / q < 2 ^ 53
    /\ x / q <= rounded <= x / q + 1
    /\ (rounded = x / q + 1 ->
          q < 2 * (x mod q) \/ (q = 2 * (x mod q) /\ Z.even (x / q) = false))
    /\ (rounded = x / q ->
          2 * (x mod q) < q \/ (q = 2 * (x mod q) /\ Z.even (x / q) = true)).
Proof.
  intros Hbig e q.
  assert (0 < x) as Hx by lia.
  assert (53 <= e) as He by (apply Z.log2_le_pow2; lia).
  assert (0 < q) as Hq by (apply Z.pow_pos_nonneg; lia).
  assert (2 ^ e = 2 ^ 52 * q) as Hpow.
  { subst q. rewrite <- Z.pow_add_r by lia. f_equal. lia. }
  assert (2 ^ (e + 1) = 2 ^ 53 * q) as Hpow'.
  { subst q. rewrite <- Z.pow_add_r by lia. f_equal. lia. }
  destruct (Z.log2_spec x Hx) as [Hlow Hhigh]. fold e in Hlow, Hhigh.
  replace (Z.succ e) with (e + 1) in Hhigh by lia.
  assert (2 ^ 52 <= x / q < 2 ^ 53) as Hm.
  { split.
    - apply Z.div_le_lower_bound; lia.
    - apply Z.div_lt_upper_bound; lia. }
  unfold JS.to_double. rewrite Z.abs_eq by lia.
  destruct (Z.leb_spec x (2 ^ 53)); [lia|]. cbv zeta. fold e. fold q.
  rewrite Z.sgn_pos by assumption.
  set (rounded := if 2 * (x mod q) <? q then x / q
                  else if q <? 2 * (x mod q) then x / q + 1
                  else if Z.even (x / q) then x / q else x / q + 1).
  exists rounded. split; [lia|].
  repeat (split; [lia|]).
  subst rounded.
  destruct (Z.ltb_spec (2 * (x mod q)) q);
    [|destruct (Z.ltb_spec q (2 * (x mod q)));
      [|destruct (Z.even (x / q)) eqn:Heven]];
    (split; [lia|]); split; intros Hr; try lia; try (right; split; [lia | congruence]).
Qed.

(** Beyond 2^53 the result stays within the binade of its argument. *)
Lemma to_double_binade x :
  2 ^ 53 < x -> 2 ^ Z.log2 x <= JS.to_double x <= 2 ^ (Z.log2 x + 1).
Proof.
  intros Hbig.
  destruct (to_double_large x Hbig)
    as (rounded & -> & He & Hq & Hpow & Hpow' & Hm & Hr & _).
  rewrite Hpow, Hpow'. nia.
Qed.

(** Rounding is monotone on the positive numbers. *)
Lemma to_double_monotone x y : 0 < x -> x <= y -> JS.to_double x <= JS.to_double y.
Proof.
  intros Hx Hxy.
  destruct (Z.le_gt_cases y (2 ^ 53)) as [Hy | Hy].
  { rewrite !to_double_small by lia. assumption. }
  pose proof (to_double_binade y Hy) as [Hylow _].
  assert (53 <= Z.log2 y) as Hey by (apply Z.log2_le_pow2; lia).
  assert (2 ^ 53 <= 2 ^ Z.log2 y) as H53 by (apply Z.pow_le_mono_r; lia).
  destruct (Z.le_gt_cases x (2 ^ 53)) as [Hx53 | Hx53].
  { rewrite (to_double_small x) by lia. lia. }
  pose proof (to_double_binade x Hx53) as [_ Hxhigh].
  pose proof (Z.log2_le_mono x y Hxy) as Hlog.
  destruct (Z.eq_dec (Z.log2 x) (Z.log2 y)) as [Hsame | Hdiff].
  - destruct (to_double_large x Hx53)
      as (rx & -> & _ & Hq & _ & _ & _ & Hrx & Hup & _).
    destruct (to_double_large y Hy)
      as (ry & -> & _ & _ & _ & _ & _ & Hry & _ & Hdown).
    rewrite <- Hsame in *. set (q := 2 ^ (Z.log2 x - 52)) in *.
    assert (x / q <= y / q) as Hdiv by (apply Z.div_le_mono; lia).
    pose proof (Z.div_mod x q ltac:(lia)) as Hdx.
    pose proof (Z.div_mod y q ltac:(lia)) as Hdy.
    pose proof (Z.mod_pos_bound x q Hq) as Hmx.
    pose proof (Z.mod_pos_bound y q Hq) as Hmy.
    apply Z.mul_le_mono_nonneg_r; [lia|].
    destruct (Z.eq_dec (x / q) (y / q)) as [Heq | Hne]; [|lia].
    destruct (Z.eq_dec rx (x / q)) as [Hrx' | Hrx']; [lia|].
    destruct (Z.eq_dec ry (y / q)) as [Hry' | Hry']; [|lia].
    assert (rx = x / q + 1) as Hrx'' by lia.
    specialize (Hup Hrx''). specialize (Hdown Hry').
    rewrite Heq in *. assert (x mod q <= y mod q) by nia.
    destruct Hup as [Hup | [Hup Hodd]], Hdown as [Hdown | [Hdown Heven]];
      try lia. congruence.
  - assert (2 ^ (Z.log2 x + 1) <= 2 ^ Z.log2 y) by (apply Z.pow_le_mono_r; lia).
    lia.
Qed.

(** The result of a rounding is a double: rounding it again changes
    nothing. *)
Lemma to_double_idempotent x : 0 < x -> JS.to_double (JS.to_double x) = JS.to_double x.
Proof.
  intros Hx.
  destruct (Z.le_gt_cases x (2 ^ 53)) as [Hsmall | Hbig].
  { rewrite (to_double_small x) by lia. apply to_double_small. lia. }
  destruct (to_double_large x Hbig)
    as (r & Hto & He & Hq & Hpow & Hpow' & Hm & Hr & _).
  rewrite Hto. set (e := Z.log2 x) in *. set (q := 2 ^ (e - 52)) in *.
  destruct (Z.le_gt_cases (r * q) (2 ^ 53)) as [Hrsmall | Hrbig].
  { apply to_double_small. nia. }
  destruct (Z.eq_dec r (2 ^ 53)) as [Htop | Hbelow].
  - assert (Z.log2 (r * q) = e + 1) as Hlog.
    { rewrite Htop, <- Hpow'. apply Z.log2_pow2. lia. }
    destruct (to_double_large (r * q) Hrbig)
      as (r' & -> & _ & Hq' & _ & _ & _ & Hr' & Hup & _).
    rewrite Hlog in *. replace (e + 1 - 52) with (e - 52 + 1) in * by lia.
    rewrite Z.pow_add_r in * by lia. fold q in Hq', Hr', Hup |- *.
    change (2 ^ 1) with 2 in *.
    assert (r * q = 2 ^ 52 * (q * 2)) as Hrq by lia.
    rewrite Hrq in Hr', Hup. rewrite Z.div_mul in Hr', Hup by lia.
    rewrite Z.mod_mul in Hup by lia.
    destruct (Z.eq_dec r' (2 ^ 52 + 1)) as [Hr'' | Hr'']; [|nia].
    destruct (Hup Hr'') as [? | [? _]]; lia.
  - assert (Z.log2 (r * q) = e) as Hlog.
    { apply Z.log2_unique; [lia|]. replace (Z.succ e) with (e + 1) by lia.
      rewrite Hpow, Hpow'. nia. }
    destruct (to_double_large (r * q) Hrbig)
      as (r' & -> & _ & _ & _ & _ & _ & Hr' & Hup & _).
    rewrite Hlog in *. fold q in Hr', Hup |- *.
    rewrite Z.div_mul in Hr', Hup by lia. rewrite Z.mod_mul in Hup by lia.
    destruct (Z.eq_dec r' (r + 1)) as [Hr'' | Hr'']; [|f_equal; lia].
    destruct (Hup Hr'') as [? | [? _]]; lia.
Qed.

End Rounding.

Section Totals.

Variable new_URL : string -> option URL.t.

Implicit Types (store : gmap string Stored).

(** What a flush writes over a store of positive doubles, when it is a
    number, is a positive double again. *)
Lemma plus_positive_double store k ms n' :
  positive_doubles store -> 0 < ms ->
  plus (or_zero (data_at store k)) ms = number n' ->
  0 < n' /\ JS.to_double n' = n'.
Proof.
  intros Hstore Hms. unfold data_at.
  assert (forall n, 0 <= n -> number (JS.add n ms) = number n' ->
                    0 < n' /\ JS.to_double n' = n') as Hsum.
  { intros n Hn [= <-]. unfold JS.add. split.
    - apply to_double_sign. lia.
    - apply to_double_idempotent. lia. }
  destruct (store !! k) as [[n|text]|] eqn:E; simpl.
  - destruct (Hstore k n E) as [Hn _].
    destruct (Z.eqb_spec n 0); simpl; apply Hsum; lia.
  - destruct (negb (JS.is_empty text)); simpl; [discriminate | apply Hsum; lia].
  - destruct (Object_prototype k); simpl; [discriminate | apply Hsum; lia].
Qed.

Lemma updateStoredTime_doubles io d ms store :
  positive_doubles store -> positive_doubles (updateStoredTime io d ms store).
Proof.
  intros Hstore.
  destruct (updateStoredTime_cases io d ms store) as [-> | (k & _ & Hms & ->)];
    [assumption|].
  intros k' n'. rewrite lookup_insert. case_decide as Hk; [|apply Hstore].
  intros [= Hn']. now apply (plus_positive_double store k ms).
Qed.

(** Over positive doubles a flush leaves a number a number, and no
    smaller. *)
Lemma updateStoredTime_grows io d ms store k n :
  positive_doubles store -> store !! k = Some (number n) ->
  exists n', updateStoredTime io d ms store !! k = Some (number n') /\ n <= n'.
Proof.
  intros Hstore Hk.
  destruct (updateStoredTime_cases io d ms store) as [-> | (k' & _ & Hms & ->)].
  { exists n. split; [assumption | lia]. }
  rewrite lookup_insert. case_decide as Hkk.
  - subst k'. destruct (Hstore k n Hk) as [Hn Hdouble].
    unfold data_at. rewrite Hk. simpl.
    destruct (Z.eqb_spec n 0); [lia|]. simpl.
    exists (JS.add n ms). split; [reflexivity|].
    unfold JS.add. rewrite <- Hdouble at 1. apply to_double_monotone; lia.
  - exists n. split; [assumption | lia].
Qed.

Lemma run_doubles calls s :
  positive_doubles (storage s) -> positive_doubles (storage (run new_URL calls s)).
Proof.
  revert s; induction calls as [|[p c] rest IH]; intros s H; simpl; [assumption|].
  apply IH. destruct (step_store_step new_URL p c s) as (io & d & ms & ->).
  now apply updateStoredTime_doubles.
Qed.

End Totals.

(** X23.  Totals never go down, rounding included.  Along every run from a
    fresh install, a domain that has a number on record has a number on
    record after any further call, and one that is not smaller: the engine
    never lowers a total and never turns a number into a string.  (Beyond
    2^53 a sum is rounded to the nearest double; the rounding is monotone,
    so the total still does not go down.) *)
Theorem numbers_never_decrease
    (new_URL : string -> option URL.t) (calls : list (Platform * Call))
    (p : Platform) (c : Call) (k : string) (n : Z) :
  let s := run new_URL calls initial in
  storage s !! k = Some (number n) ->
  exists n', storage (step new_URL p c s) !! k = Some (number n') /\ n <= n'.
Proof.
  intros s Hk.
  assert (positive_doubles (storage s)) as Hdoubles.
  { apply run_doubles. intros k' n' H. simpl in H. now rewrite lookup_empty in H. }
  destruct (step_store_step new_URL p c s) as (io & d & ms & ->).
  now apply updateStoredTime_grows.
Qed.

Lemma numbers_never_decrease_witness :
  let visit :=
    [(browsing 1 "https://a.example/x" io_ok 10, tab_activated 1);
     (browsing 1 "https://a.example/x" io_ok 50, tab_removed 1);
     (browsing 1 "https://a.example/x" io_ok 60, tab_activated 1)] in
  exists n',
    storage (step URL.construct (browsing 1 "https://a.example/x" io_ok 100)
               (tab_removed 1) (run URL.construct visit initial)) !! "a.example"
    = Some (number n')
    /\ 40 <= n'.
Proof.
  intros visit.
  apply (numbers_never_decrease URL.construct visit
           (browsing 1 "https://a.example/x" io_ok 100) (tab_removed 1) "a.example" 40).
  reflexivity.
Defined.
